(** * nova-powervm: a shallow embedding of the PowerVM compute driver

    Part I holds the definitions, one module per source file:

    - [Network]  : [nova_powervm/virt/powervm/tasks/network.py]
    - [NetworkRest] : the same task when a call into the hypervisor raises
    - [Mgmt]     : [nova_powervm/virt/powervm/mgmt.py]
    - [Regex]    : the fragment of Python's [re] that [driver.py] relies on
    - [Driver]   : [nova_powervm/virt/powervm/driver.py]
    - [SSP]      : [nova_powervm/virt/powervm/disk/ssp.py], as exercised by
                   [tests/virt/powervm/disk/test_ssp.py]

    Part II holds the theorems, one module per module of Part I.

    Calls into pypowervm, nova, taskflow and the operating system are
    interfaces (type classes): the code under study only sequences them. *)

From Stdlib Require Import ZArith String Ascii Bool Lia HexadecimalString.
From stdpp Require Import base option list strings gmap.

Local Open Scope string_scope.
Local Open Scope list_scope.

(** * Part I: definitions *)

(** ** Exceptions and results *)

(** [pypowervm.adapter.Response], restricted to what [destroy] inspects. *)
Record Response := mkResponse { status : Z; reqpath : string }.

(** The exception classes that the modelled code raises or catches. *)
Inductive exn :=
| VirtualInterfaceCreateException
| InstanceNotFound
| HttpError (resp : Response)
| UniqueDiskDiscoveryException (path_pattern : string) (count : nat)
| AttributeError
| ClusterNotFoundByName
| TooManyClustersFound
| NoConfigNoClusterFound
| NoConfigTooManyClusters
| InstanceDiskMappingFailed
| IndexError
| OtherException (msg : string).

(** A Python call either returns a value or raises. *)
Inductive result (A : Type) :=
| Ok (a : A)
| Raise (e : exn).
Arguments Ok {A} a.
Arguments Raise {A} e.

Definition bind {A B} (r : result A) (k : A -> result B) : result B :=
  match r with
  | Ok a => k a
  | Raise e => Raise e
  end.

Declare Scope result_scope.
Delimit Scope result_scope with result.
Notation "x <- c1 ;;; c2" := (bind c1 (fun x => c2))
  (at level 100, c1 at next level, right associativity) : result_scope.

Definition raises {A} (r : result A) : bool :=
  match r with
  | Ok _ => false
  | Raise _ => true
  end.

(** ** tasks/network.py *)

Module Network.

(** A nova VIF dictionary: [vif['id']], [vif['address']] and the optional
    [vif.get('active', True)]. *)
Record VIF := mkVIF {
  vif_id : string;
  address : string;
  active : option bool
}.

(** A Client Network Adapter wrapper. *)
Record CNA := mkCNA {
  mac : string;
  vswitch_uri : string
}.

#[global] Instance VIF_eq_dec : EqDecision VIF.
Proof. solve_decision. Defined.

#[global] Instance CNA_eq_dec : EqDecision CNA.
Proof. solve_decision. Defined.

(** What [virt_api.wait_for_instance_event] observes when the [with] block
    is left: the deadline passed, or every event arrived, some of them
    (listed) with a status other than completed. *)
Inductive WaitOutcome :=
| Completed (failed : list (string * string))
| TimedOut.

(** [pypowervm.wrappers.base_partition]: the partition states the task
    compares against. *)
Class PartitionStates := {
  LPARState : Type;
  RMCState : Type;
  LPARState_eq_dec :: EqDecision LPARState;
  RMCState_eq_dec :: EqDecision RMCState;
  NOT_ACTIVATED : LPARState;
  RUNNING : LPARState;
  ACTIVE : RMCState
}.

(** The hypervisor as the task reaches it through
    [nova_powervm.virt.powervm.vm], along the calls that return; what the
    calls raise is added in [NetworkRest]. *)
Class VmModule (World : Type) := {
  get_cnas : World -> list CNA;
  crt_vif : World -> VIF -> World * CNA;
  norm_mac : string -> string
}.

(** [utils.is_neutron()], the two [CONF] options and the event machinery of
    the [virt_api]. *)
Class VirtApi (World : Type) := {
  is_neutron : bool;
  vif_plugging_is_fatal : bool;
  vif_plugging_timeout : Z;
  wait_for_instance_event : World -> list (string * string) -> WaitOutcome
}.

Record LPARWrapper `{PartitionStates} := mkLPAR {
  state : LPARState;
  rmc_state : RMCState
}.

(** [state_ok_for_plug(lpar_wrap)] *)
Definition state_ok_for_plug `{PartitionStates} (lpar_wrap : LPARWrapper)
  : bool :=
  if bool_decide (state lpar_wrap = NOT_ACTIVATED) then true
  else if bool_decide (state lpar_wrap = RUNNING)
          && bool_decide (rmc_state lpar_wrap = ACTIVE) then true
  else false.

(** The inner [for cna_w in cna_w_list: ... break]; [true] when the loop
    was left through [break]. *)
Fixpoint cna_loop `{VmModule World} (cna_w_list : list CNA) (vif : VIF)
  : bool :=
  match cna_w_list with
  | [] => false
  | cna_w :: rest =>
      if bool_decide (norm_mac (mac cna_w) = address vif) then true
      else cna_loop rest vif
  end.

(** The outer loop: [crt_vifs.append(vif)] runs in the [else] of the inner
    [for], that is when no [break] happened. *)
Definition trim_vifs `{VmModule World} (network_info : list VIF)
           (cna_w_list : list CNA) : list VIF :=
  fold_left
    (fun crt_vifs vif =>
       if cna_loop cna_w_list vif then crt_vifs else crt_vifs ++ [vif])
    network_info [].

(** [_get_vif_events] *)
Definition _get_vif_events `{VirtApi World} (network_info : list VIF)
  : list (string * string) :=
  if is_neutron && vif_plugging_is_fatal && negb (vif_plugging_timeout =? 0)%Z
  then
    omap (fun vif =>
            if negb (default true (active vif))
            then Some ("network-vif-plugged", vif_id vif) else None)
         network_info
  else [].

(** [for vif in crt_vifs: vm.crt_vif(...)], with the adapters that the
    calls made. *)
Fixpoint crt_loop `{VmModule World} (w : World) (crt_vifs : list VIF)
  : World * list (VIF * CNA) :=
  match crt_vifs with
  | [] => (w, [])
  | vif :: rest =>
      let '(w1, cna) := crt_vif w vif in
      let '(w2, log) := crt_loop w1 rest in
      (w2, (vif, cna) :: log)
  end.

(** [_vif_callback_failed] *)
Definition _vif_callback_failed `{VirtApi World} (event : string * string)
  : result unit :=
  if vif_plugging_is_fatal then Raise VirtualInterfaceCreateException
  else Ok tt.

(** The error callback runs once per event that did not complete. *)
Fixpoint run_callbacks `{VirtApi World} (failed : list (string * string))
  : result unit :=
  match failed with
  | [] => Ok tt
  | ev :: rest => (_ <- _vif_callback_failed ev ;;; run_callbacks rest)%result
  end.

(** The outcome of one run of the task: what it returned or raised, the
    hypervisor afterwards, and the [vm.crt_vif] calls in order. *)
Record PlugOutcome (World : Type) := mkPlugOutcome {
  plug_result : result (list CNA);
  plug_world : World;
  plug_created : list (VIF * CNA)
}.
Arguments mkPlugOutcome {World} _ _ _.
Arguments plug_result {World} _.
Arguments plug_world {World} _.
Arguments plug_created {World} _.

(** [PlugVifs.execute(lpar_wrap)]; [network_info] is [self.network_info]. *)
Definition execute `{PartitionStates} `{VmModule World, !VirtApi World}
           (network_info : list VIF) (w : World) (lpar_wrap : LPARWrapper)
  : PlugOutcome World :=
  if negb (state_ok_for_plug lpar_wrap) then
    mkPlugOutcome (Raise VirtualInterfaceCreateException) w []
  else
    let cna_w_list := get_cnas w in
    let crt_vifs := trim_vifs network_info cna_w_list in
    let events := _get_vif_events network_info in
    let '(w', log) := crt_loop w crt_vifs in
    match wait_for_instance_event w' events with
    | TimedOut => mkPlugOutcome (Raise VirtualInterfaceCreateException) w' log
    | Completed failed =>
        mkPlugOutcome (_ <- run_callbacks failed ;;; Ok cna_w_list)%result
                      w' log
    end.

(** The management switch and the secure RMC adapter, through
    [nova_powervm.virt.powervm.vm]: [vm.get_secure_rmc_vswitch] gives the
    [href] of the switch, if there is one. *)
Class MgmtVm (World : Type) := {
  get_secure_rmc_vswitch : World -> option string;
  crt_secure_rmc_vif : World -> World * CNA
}.

(** [PlugMgmtVif.execute(vm_cnas)] *)
Definition PlugMgmtVif_execute `{MgmtVm World} (w : World)
           (vm_cnas : list CNA) : World * option CNA :=
  match get_secure_rmc_vswitch w with
  | None => (w, None)
  | Some href =>
      if existsb (fun cna_w => bool_decide (vswitch_uri cna_w = href)) vm_cnas
      then (w, None)
      else let '(w', mgmt_cna) := crt_secure_rmc_vif w in (w', Some mgmt_cna)
  end.

End Network.

(** ** tasks/network.py, when a call into the hypervisor raises

    [Network] follows [PlugVifs.execute] along the calls that return. The
    REST calls behind [vm.get_cnas] and [vm.crt_vif] can raise, and so can
    the event machinery when the [with] block is entered or left; the task
    handles none of that but the timeout. Here each of these calls either
    raises what [RestFaults] says, or returns what it returns in
    [Network]. *)

Module NetworkRest.

(** What raises, if anything: [vm.get_cnas]; [vm.crt_vif], with the
    hypervisor as the failed call leaves it; [wait_for_instance_event] on
    entering the [with] block, before the first [vm.crt_vif]; and on
    leaving it, other than by the timeout or through the error callback. *)
Class RestFaults (World : Type) := {
  get_cnas_raises : World -> option exn;
  crt_vif_raises : World -> Network.VIF -> option (World * exn);
  wait_enter_raises : World -> list (string * string) -> option exn;
  wait_exit_raises : World -> list (string * string) -> option exn
}.

(** [vm.get_cnas(adapter, instance, host_uuid)] *)
Definition get_cnas `{Network.VmModule World} `{!RestFaults World} (w : World)
  : result (list Network.CNA) :=
  match get_cnas_raises w with
  | Some e => Raise e
  | None => Ok (Network.get_cnas w)
  end.

(** [vm.crt_vif(adapter, instance, host_uuid, vif)] *)
Definition crt_vif `{Network.VmModule World} `{!RestFaults World} (w : World)
           (vif : Network.VIF) : World * result Network.CNA :=
  match crt_vif_raises w vif with
  | Some (w', e) => (w', Raise e)
  | None => let '(w', cna) := Network.crt_vif w vif in (w', Ok cna)
  end.

(** [for vif in crt_vifs: vm.crt_vif(...)]: the loop ends at the first call
    that raises; the adapters made until then are made. *)
Fixpoint crt_loop `{Network.VmModule World} `{!RestFaults World} (w : World)
         (crt_vifs : list Network.VIF)
  : World * list (Network.VIF * Network.CNA) * result unit :=
  match crt_vifs with
  | [] => (w, [], Ok tt)
  | vif :: rest =>
      match crt_vif w vif with
      | (w1, Raise e) => (w1, [], Raise e)
      | (w1, Ok cna) =>
          let '(w2, log, r) := crt_loop w1 rest in
          (w2, (vif, cna) :: log, r)
      end
  end.

(** [PlugVifs.execute(lpar_wrap)]: only the timeout of the wait is caught
    and turned into [VirtualInterfaceCreateException]; whatever else a call
    raises leaves the task as it is. *)
Definition execute `{Network.PartitionStates} `{Network.VmModule World}
           `{!Network.VirtApi World} `{!RestFaults World}
           (network_info : list Network.VIF) (w : World)
           (lpar_wrap : Network.LPARWrapper) : Network.PlugOutcome World :=
  if negb (Network.state_ok_for_plug lpar_wrap) then
    Network.mkPlugOutcome (Raise VirtualInterfaceCreateException) w []
  else
    match get_cnas w with
    | Raise e => Network.mkPlugOutcome (Raise e) w []
    | Ok cna_w_list =>
        let crt_vifs := Network.trim_vifs network_info cna_w_list in
        let events := Network._get_vif_events network_info in
        match wait_enter_raises w events with
        | Some e => Network.mkPlugOutcome (Raise e) w []
        | None =>
            match crt_loop w crt_vifs with
            | (w', log, Raise e) => Network.mkPlugOutcome (Raise e) w' log
            | (w', log, Ok _) =>
                match wait_exit_raises w' events with
                | Some e => Network.mkPlugOutcome (Raise e) w' log
                | None =>
                    match Network.wait_for_instance_event w' events with
                    | Network.TimedOut =>
                        Network.mkPlugOutcome
                          (Raise VirtualInterfaceCreateException) w' log
                    | Network.Completed failed =>
                        Network.mkPlugOutcome
                          (_ <- Network.run_callbacks failed ;;;
                           Ok cna_w_list)%result
                          w' log
                    end
                end
            end
        end
    end.

End NetworkRest.

(** ** mgmt.py *)

Module Mgmt.

(** [mapping.client_adapter] *)
Record ClientAdapter := mkClientAdapter { slot_number : Z }.

(** [mapping.backing_storage] *)
Record Storage := mkStorage { udid : string }.

(** [pypowervm.wrappers.virtual_io_server.VSCSIMapping] *)
Record VSCSIMapping := mkVSCSIMapping {
  client_adapter : ClientAdapter;
  backing_storage : Storage
}.

(** The management partition's operating system: [glob.glob],
    [linuxscsi.echo_scsi_command] and [os.path.realpath]. *)
Class OS (World : Type) := {
  glob : World -> string -> list string;
  echo_scsi_command : World -> string -> string -> World;
  realpath : World -> string -> string
}.

(** ['%x' % n]: lowercase hexadecimal, with a sign for negative numbers. *)
Definition fmt_x (n : Z) : string :=
  NilZero.string_of_int (Z.to_hex_int n).

(** [s[-n:]] for [n > 0]: the last [n] characters, all of [s] when it is
    shorter. *)
Definition last_chars (n : nat) (s : string) : string :=
  substring (String.length s - n) n s.

(** [lslot = 0x30000000 | mapping.client_adapter.slot_number] *)
Definition lslot (mapping : VSCSIMapping) : Z :=
  Z.lor 0x30000000 (slot_number (client_adapter mapping)).

(** [udid = mapping.backing_storage.udid[-32:]] *)
Definition disk_udid (mapping : VSCSIMapping) : string :=
  last_chars 32 (udid (backing_storage mapping)).

(** ['/sys/bus/vio/devices/%x/host*/scsi_host/host*/scan' % lslot] *)
Definition scan_pattern (mapping : VSCSIMapping) : string :=
  "/sys/bus/vio/devices/" +:+ fmt_x (lslot mapping)
    +:+ "/host*/scsi_host/host*/scan".

(** [dpathpat = '/dev/disk/by-id/*%s' % udid] *)
Definition dpathpat (mapping : VSCSIMapping) : string :=
  "/dev/disk/by-id/*" +:+ disk_udid mapping.

(** The bus scan: one [echo_scsi_command(scanpath, '- - -')] per path that
    the glob yields. *)
Definition scan_bus `{OS World} (w : World) (mapping : VSCSIMapping) : World :=
  fold_left (fun w' scanpath => echo_scsi_command w' scanpath "- - -")
            (glob w (scan_pattern mapping)) w.

(** [discover_vscsi_disk(mapping)] *)
Definition discover_vscsi_disk `{OS World} (w : World) (mapping : VSCSIMapping)
  : World * result string :=
  let w1 := scan_bus w mapping in
  let disks := glob w1 (dpathpat mapping) in
  if negb (length disks =? 1)%nat then
    (w1, Raise (UniqueDiskDiscoveryException (dpathpat mapping) (length disks)))
  else
    match disks !! 0%nat with
    | Some d => (w1, Ok (realpath w1 d))
    | None => (w1, Raise IndexError)
    end.

(** [pypowervm.wrappers.logical_partition.LPAR], as far as the driver reads
    it. *)
Record LPAR := mkMgmtLPAR { lpar_uuid : string; lpar_name : string }.

(** [LPAR.search(adapter, is_mgmt_partition=True)] *)
Class LPARSearch (World : Type) := {
  search_mgmt_partition : World -> list LPAR
}.

(** [get_mgmt_partition(adapter)] *)
Definition get_mgmt_partition `{LPARSearch World} (w : World) : result LPAR :=
  let wraps := search_mgmt_partition w in
  if negb (length wraps =? 1)%nat then
    Raise (OtherException "Unable to find a single management partition.")
  else
    match wraps !! 0%nat with
    | Some lpar_w => Ok lpar_w
    | None => Raise IndexError
    end.

End Mgmt.

(** ** The regular expressions of [driver.py] *)

Module Regex.

(** Abstract syntax; [Dot] is Python's [.] without [re.DOTALL]. *)
Inductive regex :=
| Empty
| Eps
| Lit (c : ascii)
| Dot
| Cat (r1 r2 : regex)
| Alt (r1 r2 : regex)
| Star (r : regex).

#[global] Instance regex_eq_dec : EqDecision regex.
Proof. solve_decision. Defined.

Definition newline : ascii := "010"%char.

(** The words of a regular expression, as lists of characters. *)
Inductive matches : regex -> list ascii -> Prop :=
| m_eps : matches Eps []
| m_lit c : matches (Lit c) [c]
| m_dot c : c <> newline -> matches Dot [c]
| m_cat r1 r2 u v : matches r1 u -> matches r2 v -> matches (Cat r1 r2) (u ++ v)
| m_alt_l r1 r2 u : matches r1 u -> matches (Alt r1 r2) u
| m_alt_r r1 r2 u : matches r2 u -> matches (Alt r1 r2) u
| m_star_nil r : matches (Star r) []
| m_star_cons r u v :
    matches r u -> matches (Star r) v -> matches (Star r) (u ++ v).

Fixpoint nullable (r : regex) : bool :=
  match r with
  | Empty => false
  | Eps => true
  | Lit _ => false
  | Dot => false
  | Cat r1 r2 => nullable r1 && nullable r2
  | Alt r1 r2 => nullable r1 || nullable r2
  | Star _ => true
  end.

(** Constructors that drop [Empty] and [Eps] where they change nothing. *)
Definition alt (r1 r2 : regex) : regex :=
  match r1, r2 with
  | Empty, _ => r2
  | _, Empty => r1
  | _, _ => Alt r1 r2
  end.

Definition cat (r1 r2 : regex) : regex :=
  match r1, r2 with
  | Empty, _ => Empty
  | _, Empty => Empty
  | Eps, _ => r2
  | _, Eps => r1
  | _, _ => Cat r1 r2
  end.

(** Brzozowski derivative. *)
Fixpoint deriv (c : ascii) (r : regex) : regex :=
  match r with
  | Empty => Empty
  | Eps => Empty
  | Lit d => if Ascii.eqb c d then Eps else Empty
  | Dot => if Ascii.eqb c newline then Empty else Eps
  | Cat r1 r2 =>
      alt (cat (deriv c r1) r2) (if nullable r1 then deriv c r2 else Empty)
  | Alt r1 r2 => alt (deriv c r1) (deriv c r2)
  | Star r1 => cat (deriv c r1) (Star r1)
  end.

(** Some prefix of [s] is a word of [r] ([re.match] succeeds). *)
Fixpoint match_prefix (r : regex) (s : list ascii) : bool :=
  nullable r ||
  match s with
  | [] => false
  | c :: s' => match_prefix (deriv c r) s'
  end.

(** Some factor of [s] is a word of [r] ([re.search] succeeds). *)
Fixpoint search (r : regex) (s : list ascii) : bool :=
  match_prefix r s ||
  match s with
  | [] => false
  | _ :: s' => search r s'
  end.

Definition atom (c : ascii) : regex :=
  if Ascii.eqb c "."%char then Dot else Lit c.

(** The pattern syntax that [driver.py] uses: ordinary characters, [.] and a
    postfix [*]. *)
Fixpoint compile (p : list ascii) : regex :=
  match p with
  | [] => Eps
  | c :: p' =>
      match p' with
      | d :: p'' =>
          if Ascii.eqb d "*"%char then Cat (Star (atom c)) (compile p'')
          else Cat (atom c) (compile p')
      | [] => Cat (atom c) Eps
      end
  end.

(** [re.search(pattern, s)] as a truth value. *)
Definition re_search (pattern s : string) : bool :=
  search (compile (list_ascii_of_string pattern)) (list_ascii_of_string s).

End Regex.

(** ** driver.py *)

Module Driver.

(** [nova.objects.flavor.Flavor] *)
Record Flavor := mkFlavor { root_gb : Z }.

(** The nova instance, as far as the driver reads it. *)
Record Instance := mkInstance {
  name : string;
  uuid : string;
  instance_type_id : Z;
  task_state : option string
}.

(** [bdm['connection_info']]: [driver_volume_type] may be missing. *)
Record ConnInfo := mkConnInfo {
  driver_volume_type : option string;
  serial : string
}.

(** A block device of the mapping; [bdm.get('connection_info')] is [None]
    when there is none. *)
Record BDM := mkBDM {
  connection_info : option ConnInfo;
  boot_index : Z;
  mount_device : string
}.

(** The [block_device_info] dictionary. The outer [option] of
    [block_device_mapping] says whether the key is present, the inner one
    whether its value is a list or [None]. *)
Record BlockDeviceInfo := mkBlockDeviceInfo {
  block_device_mapping : option (option (list BDM))
}.

(** The tasks of [nova_powervm.virt.powervm.tasks], with the arguments that
    tell two tasks of a flow apart. *)
Inductive Task :=
| tf_vm_Create (flavor : Flavor)
| tf_net_PlugVifs (network_info : list Network.VIF)
| tf_net_PlugMgmtVif
| tf_stg_CreateDiskForImg (disk_size : Z)
| tf_stg_ConnectDisk
| tf_stg_ConnectVolume (vol_drv : option string) (conn_info : ConnInfo)
| tf_stg_SaveBDM (bdm : BDM)
| tf_stg_CreateAndConnectCfgDrive
| tf_vm_PowerOn
| tf_vm_PowerOff (pvm_inst_uuid : string)
| tf_stg_DeleteVOpt (pvm_inst_uuid : string)
| tf_stg_DisconnectVolume (vol_drv : option string) (conn_info : ConnInfo)
    (pvm_inst_uuid : string)
| tf_stg_DetachDisk (pvm_inst_uuid : string)
| tf_stg_DeleteDisk
| tf_vm_Delete (pvm_inst_uuid : string).

(** What the driver calls in nova. *)
Class Nova := {
  block_device_info_get_mapping : option BlockDeviceInfo -> list BDM;
  get_root_bdm : list BDM -> option BDM;
  configdrive_required_by : Instance -> bool;
  Flavor_get_by_id : Z -> Flavor;
  RESIZE_REVERTING : string
}.

(** What runs against the hypervisor: the taskflow engine on a linear flow,
    and [vm.get_pvm_uuid]. *)
Class Engine (World : Type) := {
  engine_run : list Task -> World -> World * result unit;
  get_pvm_uuid : Instance -> result string
}.

(** The driver object: [self.vol_drvs], a dictionary from volume type to
    volume driver. *)
Record PowerVMDriver := mkDriver {
  vol_drvs : gmap string string
}.

(** [flow.add(task)] on a linear flow. *)
Definition flow_add (flow : list Task) (t : Task) : list Task :=
  flow ++ [t].

(** [_extract_bdm(block_device_info)]; the result is [None] only when the
    dictionary maps the key to [None]. *)
Definition _extract_bdm (block_device_info : option BlockDeviceInfo)
  : option (list BDM) :=
  match block_device_info with
  | None => Some []
  | Some d =>
      match block_device_mapping d with
      | None => Some []
      | Some v => v
      end
  end.

(** [_is_booted_from_volume(block_device_info)] *)
Definition _is_booted_from_volume `{Nova}
           (block_device_info : option BlockDeviceInfo) : bool :=
  let root_bdm :=
    get_root_bdm (block_device_info_get_mapping block_device_info) in
  match root_bdm with
  | Some _ => true
  | None => false
  end.

(** [self.vol_drvs.get(conn_info.get('driver_volume_type'))] *)
Definition vol_drv_for (self : PowerVMDriver) (conn_info : ConnInfo)
  : option string :=
  match driver_volume_type conn_info with
  | Some drv_type => vol_drvs self !! drv_type
  | None => None
  end.

(** The [for bdm in bdms] loop of [spawn]. [conn_info.get] on a [None]
    [conn_info] raises [AttributeError]. *)
Fixpoint spawn_volumes (self : PowerVMDriver) (bdms : list BDM)
         (flow : list Task) : result (list Task) :=
  match bdms with
  | [] => Ok flow
  | bdm :: rest =>
      match connection_info bdm with
      | None => Raise AttributeError
      | Some conn_info =>
          let vol_drv := vol_drv_for self conn_info in
          let flow := flow_add flow (tf_stg_ConnectVolume vol_drv conn_info) in
          let flow := flow_add flow (tf_stg_SaveBDM bdm) in
          spawn_volumes self rest flow
      end
  end.

(** The flow that [spawn] defines, up to [engine.run()]. *)
Definition spawn_flow `{Nova} (self : PowerVMDriver) (instance : Instance)
           (network_info : list Network.VIF)
           (block_device_info : option BlockDeviceInfo)
           (flavor : option Flavor) : result (list Task) :=
  let flavor :=
    match flavor with
    | Some f => f
    | None => Flavor_get_by_id (instance_type_id instance)
    end in
  let flow := [] in
  let flow := flow_add flow (tf_vm_Create flavor) in
  let flow := flow_add flow (tf_net_PlugVifs network_info) in
  let flow := flow_add flow tf_net_PlugMgmtVif in
  let flow :=
    if negb (_is_booted_from_volume block_device_info) then
      let flow := flow_add flow (tf_stg_CreateDiskForImg (root_gb flavor)) in
      flow_add flow tf_stg_ConnectDisk
    else flow in
  let bdms := _extract_bdm block_device_info in
  (flow <- match bdms with
           | Some bdms => spawn_volumes self bdms flow
           | None => Ok flow
           end ;;;
   let flow :=
     if configdrive_required_by instance
     then flow_add flow tf_stg_CreateAndConnectCfgDrive else flow in
   let flow := flow_add flow tf_vm_PowerOn in
   Ok flow)%result.

(** [spawn(...)] *)
Definition spawn `{Nova} `{Engine World} (self : PowerVMDriver) (w : World)
           (instance : Instance) (network_info : list Network.VIF)
           (block_device_info : option BlockDeviceInfo)
           (flavor : option Flavor) : World * result unit :=
  match spawn_flow self instance network_info block_device_info flavor with
  | Ok flow => engine_run flow w
  | Raise e => (w, Raise e)
  end.

(** The [for bdm in bdms] loop of [destroy]'s [_run_flow]. *)
Fixpoint destroy_volumes (self : PowerVMDriver) (pvm_inst_uuid : string)
         (bdms : list BDM) (flow : list Task) : result (list Task) :=
  match bdms with
  | [] => Ok flow
  | bdm :: rest =>
      match connection_info bdm with
      | None => Raise AttributeError
      | Some conn_info =>
          let vol_drv := vol_drv_for self conn_info in
          let flow :=
            flow_add flow
                     (tf_stg_DisconnectVolume vol_drv conn_info pvm_inst_uuid) in
          destroy_volumes self pvm_inst_uuid rest flow
      end
  end.

(** The flow that [_run_flow] defines. *)
Definition destroy_flow `{Nova} (self : PowerVMDriver) (pvm_inst_uuid : string)
           (block_device_info : option BlockDeviceInfo) (destroy_disks : bool)
  : result (list Task) :=
  let flow := [] in
  let flow := flow_add flow (tf_vm_PowerOff pvm_inst_uuid) in
  let flow := flow_add flow (tf_stg_DeleteVOpt pvm_inst_uuid) in
  let bdms := _extract_bdm block_device_info in
  (flow <- match bdms with
           | Some bdms => destroy_volumes self pvm_inst_uuid bdms flow
           | None => Ok flow
           end ;;;
   let flow :=
     if negb (_is_booted_from_volume block_device_info) then
       let flow := flow_add flow (tf_stg_DetachDisk pvm_inst_uuid) in
       if destroy_disks then flow_add flow tf_stg_DeleteDisk else flow
     else flow in
   let flow := flow_add flow (tf_vm_Delete pvm_inst_uuid) in
   Ok flow)%result.

(** The body of the [try] in [destroy]:
    [pvm_inst_uuid = vm.get_pvm_uuid(instance); _run_flow()]. *)
Definition destroy_body `{Nova} `{Engine World} (self : PowerVMDriver)
           (w : World) (instance : Instance)
           (block_device_info : option BlockDeviceInfo) (destroy_disks : bool)
  : World * result unit :=
  match get_pvm_uuid instance with
  | Raise e => (w, Raise e)
  | Ok pvm_inst_uuid =>
      match destroy_flow self pvm_inst_uuid block_device_info destroy_disks with
      | Raise e => (w, Raise e)
      | Ok flow => engine_run flow w
      end
  end.

(** [exp] in [destroy] *)
Definition exp : string :=
  "/ManagedSystem/.*/LogicalPartition/.*-.*-.*-.*-.*".

(** The [except] clauses of [destroy], applied to what the body raised. *)
Definition destroy_handler (e : exn) : result unit :=
  match e with
  | InstanceNotFound => Ok tt
  | HttpError resp =>
      if (status resp =? 404)%Z && Regex.re_search exp (reqpath resp)
      then Ok tt
      else Raise (HttpError resp)
  | _ => Raise e
  end.

(** [destroy(...)] *)
Definition destroy `{Nova} `{Engine World} (self : PowerVMDriver) (w : World)
           (instance : Instance) (block_device_info : option BlockDeviceInfo)
           (destroy_disks : bool) : World * result unit :=
  if bool_decide (task_state instance = Some RESIZE_REVERTING) then (w, Ok tt)
  else
    let '(w', r) :=
      destroy_body self w instance block_device_info destroy_disks in
    match r with
    | Ok _ => (w', Ok tt)
    | Raise e => (w', destroy_handler e)
    end.

(** *** The rest of the driver *)

(** The exceptions that the rest of the driver adds to those above. *)
Inductive driver_exn :=
| Exn (e : exn)
| KeyError (key : string)
| VirtualInterfacePlugException (msg : string)
| InstanceFaultRollback (inner_exception : driver_exn)
| ResizeError (reason : string)
| FlavorNotFound (flavor_id : Z)
| NotImplementedError.

Inductive outcome (A : Type) :=
| Returns (a : A)
| Raises (e : driver_exn).
Arguments Returns {A} a.
Arguments Raises {A} e.

Definition lift {A} (r : result A) : outcome A :=
  match r with
  | Ok a => Returns a
  | Raise e => Raises (Exn e)
  end.

(** [importutils.import_class(name)()]: the instance of a class given by
    name. *)
Class ImportUtils := {
  import_class_inst : string -> string
}.

(** [_inst_dict(input_dict)]: the loop over the keys fills [response]. *)
Definition _inst_dict `{ImportUtils} (input_dict : gmap string string)
  : gmap string string :=
  map_fold (fun key cls response => <[key := import_class_inst cls]> response)
           ∅ input_dict.

(** [VOLUME_DRIVER_MAPPINGS]; [fc_strategy] stands for
    [vol_attach.FC_STRATEGY_MAPPING[CONF.powervm.fc_attach_strategy]]. *)
Definition VOLUME_DRIVER_MAPPINGS (fc_strategy : string) : gmap string string :=
  {[ "fibre_channel" := fc_strategy ]}.

Definition DISK_ADPT_NS : string := "nova_powervm.virt.powervm.disk".

Definition DISK_ADPT_MAPPINGS : gmap string string :=
  <["localdisk" := "localdisk.LocalStorage"]>
    (<["ssp" := "ssp.SSPDiskAdapter"]> ∅).

(** [pypowervm.wrappers.managed_system.System] *)
Record System := mkSystem { sys_uuid : string; mtms_str : string }.

(** What [init_host] reads and builds: the feed of managed systems, the
    disk adapter object that [importutils.import_object_ns] makes from
    [conn_info] (host and management partition UUID), and the host CPU
    statistics. *)
Class HostRest (World : Type) := {
  read_System_feed : World -> list System;
  import_object_ns : World -> string -> string -> string -> string
                     -> result string;
  HostCPUStats : World -> string -> result string
}.

(** The attributes that [init_host] sets on the driver. *)
Record DriverState := mkDriverState {
  host_wrapper : System;
  host_uuid : string;
  mp_uuid : string;
  disk_dvr : string;
  driver_vol_drvs : PowerVMDriver;
  host_cpu_stats : string
}.

(** [_get_host_uuid()]; the count is an argument of the exception, it is
    not formatted into the message. *)
Definition _get_host_uuid `{HostRest World} (w : World) : result System :=
  let syswraps := read_System_feed w in
  if negb (length syswraps =? 1)%nat then
    Raise (OtherException "Expected exactly one host; found %d")
  else
    match syswraps !! 0%nat with
    | Some sys => Ok sys
    | None => Raise IndexError
    end.

(** [_get_disk_adapter()] with [CONF.powervm.disk_driver] *)
Definition _get_disk_adapter `{HostRest World} (w : World)
           (disk_driver host_uuid mp_uuid : string) : outcome string :=
  match DISK_ADPT_MAPPINGS !! disk_driver with
  | None => Raises (KeyError disk_driver)
  | Some cls => lift (import_object_ns w DISK_ADPT_NS cls host_uuid mp_uuid)
  end.

(** [init_host(host)] *)
Definition init_host `{HostRest World} `{!Mgmt.LPARSearch World}
           `{ImportUtils} (w : World) (disk_driver fc_strategy : string)
  : outcome DriverState :=
  match _get_host_uuid w with
  | Raise e => Raises (Exn e)
  | Ok sys =>
      match Mgmt.get_mgmt_partition w with
      | Raise e => Raises (Exn e)
      | Ok mp =>
          match _get_disk_adapter w disk_driver (sys_uuid sys)
                                  (Mgmt.lpar_uuid mp) with
          | Raises e => Raises e
          | Returns dvr =>
              let vols := _inst_dict (VOLUME_DRIVER_MAPPINGS fc_strategy) in
              match HostCPUStats w (sys_uuid sys) with
              | Raise e => Raises (Exn e)
              | Ok stats =>
                  Returns (mkDriverState sys (sys_uuid sys) (Mgmt.lpar_uuid mp)
                                         dvr (mkDriver vols) stats)
              end
          end
      end
  end.

(** The [flavor] argument of [migrate_disk_and_power_off]: nothing, a
    dictionary or a [Flavor] object. *)
Inductive FlavorArg :=
| FlavorNone
| FlavorDict (d : gmap string Z)
| FlavorObj (f : Flavor).

(** What the resize path calls in [vm], in the disk driver and in
    [pypowervm.utils.retry]; [my_ip] is [CONF.my_ip]. *)
Class VmOps (World : Type) `{Network.PartitionStates} := {
  get_instance_wrapper : World -> Instance -> result Network.LPARWrapper;
  vm_power_off : World -> Instance -> option Network.LPARWrapper
                 -> World * result bool;
  vm_update : World -> Instance -> Flavor -> Network.LPARWrapper
              -> World * result unit;
  extend_disk : World -> Instance -> Z -> World * result unit;
  retry : (World -> World * result unit) -> World -> World * result unit;
  my_ip : string
}.

(** [_update_vm()] inside [_resize_vm] *)
Definition _update_vm `{VmOps World} (instance : Instance) (flav_obj : Flavor)
           (w : World) : World * result unit :=
  match get_instance_wrapper w instance with
  | Raise e => (w, Raise e)
  | Ok entry =>
      match vm_power_off w instance (Some entry) with
      | (w1, Raise e) => (w1, Raise e)
      | (w1, Ok pwrd) =>
          let entry' :=
            if pwrd then get_instance_wrapper w1 instance else Ok entry in
          match entry' with
          | Raise e => (w1, Raise e)
          | Ok entry' => vm_update w1 instance flav_obj entry'
          end
      end
  end.

(** [_resize_vm(context, instance, flav_obj, retry_interval)] *)
Definition _resize_vm `{VmOps World} (w : World) (instance : Instance)
           (flav_obj : Flavor) : World * result unit :=
  retry (_update_vm instance flav_obj) w.

(** [flavor_obj.Flavor.get_by_id(context, id)] as the resize path calls
    it: the lookup raises when it finds no flavor of that id
    ([FlavorNotFound]) or cannot reach the database. *)
Class FlavorDb := {
  flavor_obj_Flavor_get_by_id : Z -> outcome Flavor
}.

(** The first lines of [migrate_disk_and_power_off]: a dictionary that is
    not empty is looked up by its [id], and what the lookup raises is
    raised; anything else is taken as it is. [None] is what is left of
    [None] and of the empty dictionary, which are false and have no
    [root_gb]. *)
Definition resolve_flavor `{FlavorDb} (flavor : FlavorArg)
  : outcome (option Flavor) :=
  match flavor with
  | FlavorNone => Returns None
  | FlavorObj f => Returns (Some f)
  | FlavorDict d =>
      if bool_decide (d = ∅) then Returns None
      else match d !! "id" with
           | Some id =>
               match flavor_obj_Flavor_get_by_id id with
               | Returns f => Returns (Some f)
               | Raises e => Raises e
               end
           | None => Raises (KeyError "id")
           end
  end.

Inductive MigrateCall :=
| CallPowerOff
| CallExtendDisk (size : Z)
| CallResizeVm (flav_obj : Flavor).

(** [migrate_disk_and_power_off(context, instance, dest, flavor, ...)] with
    the calls it made; [instance_root_gb] is [instance.root_gb]. *)
Definition migrate_disk_and_power_off `{FlavorDb} `{VmOps World} (w : World)
           (instance : Instance) (instance_root_gb : Z) (dest : string)
           (flavor : FlavorArg)
  : World * list MigrateCall * outcome (gmap string string) :=
  let disk_info : gmap string string := ∅ in
  match resolve_flavor flavor with
  | Raises e => (w, [], Raises e)
  | Returns flav_obj =>
      if match flav_obj with
         | Some f => (root_gb f <? instance_root_gb)%Z
         | None => false
         end
      then (w, [],
            Raises (InstanceFaultRollback
                      (ResizeError "Cannot reduce disk size.")))
      else if bool_decide (dest = my_ip) then
        match flav_obj with
        | None => (w, [], Raises (Exn AttributeError))
        | Some f =>
            let '(w1, calls, r) :=
              if (root_gb f >? instance_root_gb)%Z then
                match vm_power_off w instance None with
                | (w1, Raise e) => (w1, [CallPowerOff], Raise e)
                | (w1, Ok _) =>
                    match extend_disk w1 instance (root_gb f) with
                    | (w2, r) =>
                        (w2, [CallPowerOff; CallExtendDisk (root_gb f)], r)
                    end
                end
              else (w, [], Ok tt) in
            match r with
            | Raise e => (w1, calls, Raises (Exn e))
            | Ok _ =>
                match _resize_vm w1 instance f with
                | (w2, Raise e) =>
                    (w2, calls ++ [CallResizeVm f], Raises (Exn e))
                | (w2, Ok _) =>
                    (w2, calls ++ [CallResizeVm f], Returns disk_info)
                end
            end
        end
      else (w, [], Raises NotImplementedError)
  end.

(** The flow of [plug_vifs] on the engine: [tf_vm.Get] provides the
    [lpar_wrap] that [tf_net.PlugVifs] requires; what a task raises is what
    [engine.run()] raises, as the [except] clauses of [plug_vifs] expect.
    The task is the one of [NetworkRest]: what a call into the hypervisor
    raises inside it reaches those clauses too. *)
Definition plug_vifs_run `{VmOps World} `{!Network.VmModule World}
           `{!Network.VirtApi World} `{!NetworkRest.RestFaults World}
           (w : World) (instance : Instance)
           (network_info : list Network.VIF)
  : World * result (list Network.CNA) :=
  match get_instance_wrapper w instance with
  | Raise e => (w, Raise e)
  | Ok lpar_wrap =>
      let o := NetworkRest.execute network_info w lpar_wrap in
      (Network.plug_world o, Network.plug_result o)
  end.

(** [plug_vifs(instance, network_info)] *)
Definition plug_vifs `{VmOps World} `{!Network.VmModule World}
           `{!Network.VirtApi World} `{!NetworkRest.RestFaults World}
           (w : World) (instance : Instance)
           (network_info : list Network.VIF) : World * outcome unit :=
  let '(w', r) := plug_vifs_run w instance network_info in
  match r with
  | Ok _ => (w', Returns tt)
  | Raise InstanceNotFound =>
      (w', Raises (VirtualInterfacePlugException
                     ("Plug vif failed because instance " +:+ name instance
                        +:+ " was not found.")))
  | Raise _ =>
      (w', Raises (VirtualInterfacePlugException
                     "Plug vif failed because of an unexpected error."))
  end.

(** *** reboot *)

#[local] Existing Instance Network.LPARState_eq_dec.

(** [pypowervm.tasks.power] as [reboot] calls it. *)
Class Power (World : Type) `{Network.PartitionStates} := {
  pvm_pwr_power_off : World -> Network.LPARWrapper -> bool -> bool
                      -> World * result unit;
  pvm_pwr_power_on : World -> Network.LPARWrapper -> World * result unit
}.

(** What [reboot] asks of [pypowervm.tasks.power]. *)
Inductive PowerCall `{Network.PartitionStates} :=
| CallPwrPowerOff (entry : Network.LPARWrapper) (restart force_immediate : bool)
| CallPwrPowerOn (entry : Network.LPARWrapper).

(** [reboot(context, instance, network_info, reboot_type, ...)], with the
    calls made on [pypowervm.tasks.power]. *)
Definition reboot `{VmOps World} `{!Power World} (w : World)
           (instance : Instance) (reboot_type : string)
  : World * list PowerCall * result bool :=
  let force_immediate := bool_decide (reboot_type = "HARD") in
  match get_instance_wrapper w instance with
  | Raise e => (w, [], Raise e)
  | Ok entry =>
      if bool_decide (Network.state entry <> Network.NOT_ACTIVATED) then
        match pvm_pwr_power_off w entry true force_immediate with
        | (w1, Raise e) =>
            (w1, [CallPwrPowerOff entry true force_immediate], Raise e)
        | (w1, Ok _) =>
            (w1, [CallPwrPowerOff entry true force_immediate], Ok true)
        end
      else
        match pvm_pwr_power_on w entry with
        | (w1, Raise e) => (w1, [CallPwrPowerOn entry], Raise e)
        | (w1, Ok _) => (w1, [CallPwrPowerOn entry], Ok true)
        end
  end.

End Driver.

(** ** disk/ssp.py

    [ssp.py] itself is not among the sources at hand; its tests are. The
    functions of this module are modelled from what the specification says
    about them and from what [test_ssp.py] sets up and asserts. *)

Module SSP.

(** [pypowervm.wrappers.storage.LUType], the two types in use. *)
Inductive LUType :=
| LUType_DISK
| LUType_IMAGE.

(** A Logical Unit wrapper as [LU.bld(adapter, name, capacity, typ=...)]
    builds it, with the [udid] and [cloned_from_udid] that the tests set. *)
Record LU := mkLU {
  lu_name : string;
  lu_udid : string;
  capacity : Z;
  lu_type : LUType;
  cloned_from_udid : option string
}.

#[global] Instance LUType_eq_dec : EqDecision LUType.
Proof. solve_decision. Defined.

#[global] Instance LU_eq_dec : EqDecision LU.
Proof. solve_decision. Defined.

(** The Shared Storage Pool wrapper. *)
Record SSPWrap := mkSSP {
  ssp_name : string;
  logical_units : list LU
}.

(** The Cluster wrapper. *)
Record Cluster := mkCluster {
  clust_name : string;
  ssp_uri : string
}.

(** [pypowervm.util]'s sanitizer of names for the REST API. *)
Class PvmUtil := {
  sanitize : string -> string
}.

(** *** delete_disks *)

(** The part of a UDID that identifies the unit: the tests link
    ['yyabc1231'] (cloned from) to ['xxabc1231'] (the image), so the first
    two characters do not take part ([udid[2:]]). *)
Definition udid_key (u : string) : string :=
  substring 2 (String.length u - 2) u.

(** Modelled from the spec: the link of a disk LU to the image LU it was
    cloned from, via its cloned-from UDID. *)
Definition is_clone_of (img d : LU) : bool :=
  bool_decide (lu_type img = LUType_IMAGE)
  && bool_decide (lu_type d = LUType_DISK)
  && match cloned_from_udid d with
     | Some u => bool_decide (udid_key u = udid_key (lu_udid img))
     | None => false
     end.

(** Modelled from the spec: the reference count of an image LU, the number
    of disk LUs of the list that are cloned from it. *)
Definition ref_count (img : LU) (lus : list LU) : nat :=
  length (filter (fun d => is_clone_of img d = true) lus).

(** Modelled from the spec: the linear lookup of the image LU behind a
    disk LU. *)
Definition image_lu_for_clone (lus : list LU) (d : LU) : option LU :=
  List.find (fun img => is_clone_of img d) lus.

(** Modelled from the spec: taking one LU out of the list of the SSP. *)
Definition remove_lu (lu : LU) (lus : list LU) : list LU :=
  filter (fun l => l <> lu) lus.

(** Modelled from the spec: one round of the loop of [delete_disks]. The
    disk LU leaves the list; its image LU leaves too when that decrement
    brought its reference count to zero. *)
Definition remove_lu_linked_clone (lus : list LU) (lu_to_rm : LU) : list LU :=
  let image_lu := image_lu_for_clone lus lu_to_rm in
  let lus := remove_lu lu_to_rm lus in
  match image_lu with
  | Some img => if (ref_count img lus =? 0)%nat then remove_lu img lus else lus
  | None => lus
  end.

(** The adapter object with the REST traffic that [delete_disks] causes:
    [self._ssp_wrap] and the number of [update] calls so far. *)
Record Adapter := mkAdapter {
  _ssp_wrap : SSPWrap;
  update_calls : nat
}.

(** Modelled from the spec: [SSPDiskAdapter.delete_disks(context, instance,
    storage_elems)]; [ssp.py] is missing. The LUs are removed from the
    wrapper one after the other, then the SSP is updated once. *)
Definition delete_disks (self : Adapter) (storage_elems : list LU) : Adapter :=
  let ssp := _ssp_wrap self in
  let lus := fold_left remove_lu_linked_clone storage_elems (logical_units ssp) in
  mkAdapter (mkSSP (ssp_name ssp) lus) (S (update_calls self)).

(** *** connect_instance_disk_to_mgmt *)

(** What a SCSI mapping is backed by: an LU or something else (a physical
    volume, a virtual optical device). *)
Inductive StorageElem :=
| StgLU (lu : LU)
| StgOther (stg_name : string).

Record SCSIMapping := mkSCSIMapping {
  client_lpar_id : Z;
  backing_storage : option StorageElem
}.

Record VIOS := mkVIOS {
  vios_name : string;
  vios_uuid : string;
  scsi_mappings : list SCSIMapping
}.

(** The REST calls behind the iteration: [adapter.read] of one VIOS with its
    SCSI mappings, [vm.get_instance_wrapper(...).id], and
    [scsi_mapper.add_vscsi_mapping], which may raise. *)
Class MgmtRest (World : Type) := {
  read_vios : World -> string -> VIOS;
  get_instance_lpar_id : World -> string -> Z;
  add_vscsi_mapping : World -> VIOS -> LU -> World * result unit
}.

(** Modelled from the spec: the name of an instance's disk of a type,
    ['boot_' + sanitize(instance.name)] for the boot disk. *)
Definition _get_disk_name `{PvmUtil} (disk_type instance_name : string)
  : string :=
  disk_type +:+ "_" +:+ sanitize instance_name.

(** Modelled from the spec: the LUs of the instance's boot disk among the
    SCSI mappings of one VIOS (mappings of the instance's partition whose
    backing storage is an LU of that name), in mapping order. *)
Definition find_maps (maps : list SCSIMapping) (lpar_id : Z)
           (disk_name : string) : list LU :=
  omap (fun m =>
          match backing_storage m with
          | Some (StgLU lu) =>
              if bool_decide (client_lpar_id m = lpar_id)
                 && bool_decide (lu_name lu = disk_name)
              then Some lu else None
          | _ => None
          end) maps.

(** What one call of [connect_instance_disk_to_mgmt] did. *)
Record ConnectOutcome (World : Type) := mkConnectOutcome {
  conn_result : result (LU * VIOS);
  conn_world : World;
  conn_reads : list string;
  conn_adds : list (VIOS * LU)
}.
Arguments mkConnectOutcome {World} _ _ _ _.
Arguments conn_result {World} _.
Arguments conn_world {World} _.
Arguments conn_reads {World} _.
Arguments conn_adds {World} _.

(** Modelled from the spec: the hits on one VIOS are tried in order; a
    mapping call that raises makes the loop go on with the next hit. *)
Fixpoint try_hits `{MgmtRest World} (w : World) (vios : VIOS) (hits : list LU)
         (adds : list (VIOS * LU)) : World * list (VIOS * LU) * option LU :=
  match hits with
  | [] => (w, adds, None)
  | lu :: rest =>
      match add_vscsi_mapping w vios lu with
      | (w', Ok _) => (w', adds ++ [(vios, lu)], Some lu)
      | (w', Raise _) => try_hits w' vios rest (adds ++ [(vios, lu)])
      end
  end.

(** Modelled from the spec: the iteration over the VIOSes of the cluster,
    each read only when the loop reaches it. *)
Fixpoint connect_loop `{MgmtRest World} (w : World) (lpar_id : Z)
         (disk_name : string) (vios_uuids : list string)
         (reads : list string) (adds : list (VIOS * LU))
  : ConnectOutcome World :=
  match vios_uuids with
  | [] => mkConnectOutcome (Raise InstanceDiskMappingFailed) w reads adds
  | vios_uuid :: rest =>
      let vios := read_vios w vios_uuid in
      let reads := reads ++ [vios_uuid] in
      match try_hits w vios (find_maps (scsi_mappings vios) lpar_id disk_name)
                     adds with
      | (w', adds, Some lu) => mkConnectOutcome (Ok (lu, vios)) w' reads adds
      | (w', adds, None) => connect_loop w' lpar_id disk_name rest reads adds
      end
  end.

(** Modelled from the spec:
    [SSPDiskAdapter.connect_instance_disk_to_mgmt(instance)]; [ssp.py] is
    missing. [vios_uuids] is [self.vios_uuids]. *)
Definition connect_instance_disk_to_mgmt `{PvmUtil} `{MgmtRest World}
           (vios_uuids : list string) (w : World) (instance_name : string)
  : ConnectOutcome World :=
  connect_loop w (get_instance_lpar_id w instance_name)
               (_get_disk_name "boot" instance_name) vios_uuids [] [].

(** *** Cluster discovery *)

(** [Cluster.search(adapter, name=...)] and [adapter.read('Cluster')]. *)
Class ClusterRest (World : Type) := {
  Cluster_search : World -> string -> list Cluster;
  read_Cluster_feed : World -> list Cluster
}.

Inductive RestCall :=
| CallSearch (by_name : string)
| CallRead (schema_type : string).

(** Modelled from the spec: [SSPDiskAdapter._fetch_cluster()], which
    [__init__] calls; [ssp.py] is missing. [cluster_name] is
    [CONF.powervm.cluster_name], the empty string when it is not set. The
    calls made come with the result. *)
Definition _fetch_cluster `{ClusterRest World} (w : World)
           (cluster_name : string) : list RestCall * result Cluster :=
  if negb (bool_decide (cluster_name = "")) then
    let resp := Cluster_search w cluster_name in
    let calls := [CallSearch cluster_name] in
    match resp with
    | [] => (calls, Raise ClusterNotFoundByName)
    | [clust_wrap] => (calls, Ok clust_wrap)
    | _ :: _ :: _ => (calls, Raise TooManyClustersFound)
    end
  else
    let resp := read_Cluster_feed w in
    let calls := [CallRead "Cluster"] in
    match resp with
    | [] => (calls, Raise NoConfigNoClusterFound)
    | [clust_wrap] => (calls, Ok clust_wrap)
    | _ :: _ :: _ => (calls, Raise NoConfigTooManyClusters)
    end.

(** *** create_disk_from_image *)

(** The glance image: [img['name']], [img['id']], [img['size']]. *)
Record ImageMeta := mkImageMeta {
  img_name : string;
  img_id : string;
  img_size : Z
}.

(** [pypowervm.tasks.storage]: [upload_new_lu(vios_uuid, ssp, stream,
    lu_name, f_size)] and [crt_lu_linked_clone(ssp, cluster, src_lu,
    new_lu_name, lu_size_gb)], and the adapter's pick of a VIOS. *)
Class StorageTasks (World : Type) := {
  any_vios_uuid : World -> string;
  upload_new_lu : World -> string -> SSPWrap -> string -> Z -> World * LU;
  crt_lu_linked_clone :
    World -> SSPWrap -> Cluster -> LU -> string -> Z -> World * (SSPWrap * LU)
}.

Inductive StgCall :=
| CallUpload (lu_name : string) (f_size : Z)
| CallClone (src_lu : LU) (new_lu_name : string) (lu_size_gb : Z).

(** Modelled from the spec: the name of the image LU of an image,
    ['image_' + sanitize(img['name'])]. *)
Definition _get_image_name `{PvmUtil} (img : ImageMeta) : string :=
  "image_" +:+ sanitize (img_name img).

(** Modelled from the spec: the lookup of an LU of the SSP by name and
    type. *)
Definition _find_lu (ssp : SSPWrap) (name : string) (typ : LUType)
  : option LU :=
  List.find (fun lu => bool_decide (lu_type lu = typ)
                       && bool_decide (lu_name lu = name))
            (logical_units ssp).

(** Modelled from the spec:
    [SSPDiskAdapter.create_disk_from_image(context, instance, img,
    disk_size_gb)]; [ssp.py] is missing. The calls made to
    [pypowervm.tasks.storage] come with the result. *)
Definition create_disk_from_image `{PvmUtil} `{StorageTasks World}
           (ssp : SSPWrap) (clust : Cluster) (w : World)
           (instance_name : string) (img : ImageMeta) (disk_size_gb : Z)
  : World * list StgCall * LU :=
  let boot_lu_name := _get_disk_name "boot" instance_name in
  let luname := _get_image_name img in
  let '(w1, calls, image_lu) :=
    match _find_lu ssp luname LUType_IMAGE with
    | Some lu => (w, [], lu)
    | None =>
        let '(w1, lu) :=
          upload_new_lu w (any_vios_uuid w) ssp luname (img_size img) in
        (w1, [CallUpload luname (img_size img)], lu)
    end in
  let '(w2, (_, boot_lu)) :=
    crt_lu_linked_clone w1 ssp clust image_lu boot_lu_name disk_size_gb in
  (w2, calls ++ [CallClone image_lu boot_lu_name disk_size_gb], boot_lu).

End SSP.

(** * Part II: theorems *)

(** ** tasks/network.py *)

Module NetworkSpec.
Import Network.

Section PlugVifs.
Context `{PartitionStates} {World : Type} `{VmModule World, !VirtApi World}.

(** A VIF is plugged when some adapter of the list carries its address. *)
Definition plugged (cna_w_list : list CNA) (vif : VIF) : Prop :=
  Exists (fun cna_w => norm_mac (mac cna_w) = address vif) cna_w_list.

(** The two situations in which VIFs may be plugged. *)
Definition pluggable (lpar_wrap : LPARWrapper) : Prop :=
  state lpar_wrap = NOT_ACTIVATED
  \/ (state lpar_wrap = RUNNING /\ rmc_state lpar_wrap = ACTIVE).

Lemma state_ok_for_plug_spec (lpar_wrap : LPARWrapper) :
  state_ok_for_plug lpar_wrap = true <-> pluggable lpar_wrap.
Proof.
  unfold state_ok_for_plug, pluggable.
  repeat case_bool_decide; simpl; intuition congruence.
Qed.

Lemma cna_loop_spec (cna_w_list : list CNA) (vif : VIF) :
  cna_loop cna_w_list vif = true <-> plugged cna_w_list vif.
Proof.
  unfold plugged. induction cna_w_list as [|c l IH]; simpl.
  - rewrite Exists_nil. split; [discriminate | tauto].
  - rewrite Exists_cons, <- IH. case_bool_decide; intuition congruence.
Qed.

Lemma trim_vifs_acc (cna_w_list : list CNA) (vifs acc : list VIF) :
  fold_left
    (fun crt_vifs vif =>
       if cna_loop cna_w_list vif then crt_vifs else crt_vifs ++ [vif])
    vifs acc
  = acc ++ filter (fun vif => ~ plugged cna_w_list vif) vifs.
Proof.
  revert acc. induction vifs as [|v l IH]; intros acc; simpl.
  - by rewrite app_nil_r.
  - rewrite IH, filter_cons. destruct (cna_loop cna_w_list v) eqn:E.
    + apply cna_loop_spec in E. by rewrite decide_False by tauto.
    + rewrite decide_True, <- app_assoc; [done|].
      rewrite <- cna_loop_spec. congruence.
Qed.

(** The loop with [break] and [else] computes a filter. *)
Lemma trim_vifs_filter (network_info : list VIF) (cna_w_list : list CNA) :
  trim_vifs network_info cna_w_list
  = filter (fun vif => ~ plugged cna_w_list vif) network_info.
Proof. unfold trim_vifs. by rewrite trim_vifs_acc. Qed.

Lemma trim_vifs_all_plugged (network_info : list VIF) (cna_w_list : list CNA) :
  Forall (plugged cna_w_list) network_info ->
  trim_vifs network_info cna_w_list = [].
Proof.
  intros Hall. rewrite trim_vifs_filter.
  induction Hall as [|v l Hv _ IH]; [done|].
  by rewrite filter_cons, decide_False by tauto.
Qed.

Lemma crt_loop_vifs (w : World) (crt_vifs : list VIF) :
  (crt_loop w crt_vifs).2.*1 = crt_vifs.
Proof.
  revert w. induction crt_vifs as [|v l IH]; intros w; simpl; [done|].
  destruct (crt_vif w v) as [w1 c]. specialize (IH w1).
  destruct (crt_loop w1 l) as [w2 log]. cbn [snd] in *.
  rewrite fmap_cons. by f_equal.
Qed.

(** Every adapter that the loop creates comes from [vm.crt_vif] on the VIF
    it is logged with. *)
Lemma crt_loop_created (w : World) (crt_vifs : list VIF) :
  Forall (fun vc => exists w', vc.2 = (crt_vif w' vc.1).2)
         (crt_loop w crt_vifs).2.
Proof.
  revert w. induction crt_vifs as [|v l IH]; intros w; simpl; [constructor|].
  destruct (crt_vif w v) as [w1 c] eqn:E. specialize (IH w1).
  destruct (crt_loop w1 l) as [w2 log]. simpl in *. constructor; [|done].
  exists w. simpl. by rewrite E.
Qed.

(** What [execute] does once the state check has passed. *)
Lemma execute_ok (network_info : list VIF) (w : World)
      (lpar_wrap : LPARWrapper) :
  state_ok_for_plug lpar_wrap = true ->
  let run := crt_loop w (trim_vifs network_info (get_cnas w)) in
  let o := execute network_info w lpar_wrap in
  plug_created o = run.2 /\ plug_world o = run.1
  /\ (plug_result o = Raise VirtualInterfaceCreateException
      \/ plug_result o = Ok (get_cnas w))
  /\ (wait_for_instance_event run.1 (_get_vif_events network_info)
      = Completed [] -> plug_result o = Ok (get_cnas w)).
Proof.
  intros Hok. unfold execute. rewrite Hok. simpl.
  destruct (crt_loop w _) as [w' log]. simpl.
  destruct (wait_for_instance_event w' _) as [failed|]; simpl.
  - repeat split; [|intros [= ->]; done].
    destruct failed as [|ev rest]; simpl; [by right|].
    unfold _vif_callback_failed.
    destruct vif_plugging_is_fatal; simpl; [by left|].
    induction rest as [|ev' rest IH]; simpl; [by right|].
    unfold _vif_callback_failed. destruct vif_plugging_is_fatal; simpl; auto.
  - repeat split; [by left | discriminate].
Qed.

(** C6: [PlugVifs.execute] raises [VirtualInterfaceCreateException] before
    any VIF is created (and leaves the hypervisor alone) whenever the LPAR
    is neither [NOT_ACTIVATED] nor [RUNNING] with an [ACTIVE] RMC state; in
    those two situations, and only there, it goes on to the creation loop:
    [vm.crt_vif] runs on each VIF that is left after trimming. *)
Theorem plug_vifs_state_gate (network_info : list VIF) (w : World)
        (lpar_wrap : LPARWrapper) :
  let o := execute network_info w lpar_wrap in
  (~ pluggable lpar_wrap ->
     plug_result o = Raise VirtualInterfaceCreateException
     /\ plug_created o = [] /\ plug_world o = w)
  /\ (pluggable lpar_wrap ->
        plug_created o
        = (crt_loop w (trim_vifs network_info (get_cnas w))).2
        /\ (plug_created o).*1 = trim_vifs network_info (get_cnas w)).
Proof.
  simpl. split; intros Hp.
  - rewrite <- state_ok_for_plug_spec in Hp.
    unfold execute. destruct (state_ok_for_plug lpar_wrap); [done|]. by simpl.
  - apply state_ok_for_plug_spec in Hp.
    destruct (execute_ok network_info w lpar_wrap Hp) as (Hc & _).
    split; [done|]. rewrite Hc. apply crt_loop_vifs.
Qed.

(** C9: the VIFs that [PlugVifs.execute] creates are exactly the VIFs of
    [network_info], in order, whose address is the normalized MAC of no
    Client Network Adapter that the VM has on entry (none at all when the
    state check fails); when every VIF is plugged already, nothing is
    created. *)
Theorem plug_vifs_creates_unplugged (network_info : list VIF) (w : World)
        (lpar_wrap : LPARWrapper) :
  let o := execute network_info w lpar_wrap in
  (plug_created o).*1
  = (if state_ok_for_plug lpar_wrap
     then filter (fun vif =>
                    Forall (fun cna_w => norm_mac (mac cna_w) <> address vif)
                           (get_cnas w)) network_info
     else [])
  /\ (Forall (plugged (get_cnas w)) network_info -> plug_created o = []).
Proof.
  simpl.
  assert (Hfil : trim_vifs network_info (get_cnas w)
                 = filter (fun vif =>
                    Forall (fun cna_w => norm_mac (mac cna_w) <> address vif)
                           (get_cnas w)) network_info).
  { rewrite trim_vifs_filter. apply list_filter_iff. intros vif.
    unfold plugged. by rewrite <- Forall_Exists_neg. }
  destruct (state_ok_for_plug lpar_wrap) eqn:Hok.
  - destruct (execute_ok network_info w lpar_wrap Hok) as (Hc & _).
    rewrite Hc. split.
    + by rewrite crt_loop_vifs.
    + intros Hall. by rewrite trim_vifs_all_plugged.
  - unfold execute. rewrite Hok. simpl. done.
Qed.

(** C8: the list that [PlugVifs.execute] returns, the [vm_cnas] of the later
    tasks, is the list of adapters that [vm.get_cnas] gave on entry, before
    any VIF was created; no adapter that the run created is in it. An
    adapter that [vm.crt_vif] creates carries the address of its VIF. *)
Theorem plug_vifs_returns_prior_cnas (network_info : list VIF) (w : World)
        (lpar_wrap : LPARWrapper)
        (Hmac : forall w' vif, vif ∈ network_info ->
                  norm_mac (mac (crt_vif w' vif).2) = address vif) :
  let o := execute network_info w lpar_wrap in
  (forall vm_cnas, plug_result o = Ok vm_cnas -> vm_cnas = get_cnas w)
  /\ (pluggable lpar_wrap ->
      wait_for_instance_event (plug_world o) (_get_vif_events network_info)
      = Completed [] ->
      plug_result o = Ok (get_cnas w))
  /\ Forall (fun vc => vc.2 ∉ get_cnas w) (plug_created o).
Proof.
  simpl. destruct (state_ok_for_plug lpar_wrap) eqn:Hok.
  - destruct (execute_ok network_info w lpar_wrap Hok) as (Hc & Hw & Hr & Hd).
    split; [|split].
    + intros l Hl. destruct Hr as [Hr|Hr]; congruence.
    + intros _ Hwait. apply Hd. by rewrite <- Hw.
    + rewrite Hc.
      pose proof (crt_loop_created w (trim_vifs network_info (get_cnas w)))
        as Hcr.
      pose proof (crt_loop_vifs w (trim_vifs network_info (get_cnas w)))
        as Hv.
      apply Forall_forall. intros [vif c] Hvc Hbad.
      destruct (proj1 (Forall_forall _ _) Hcr _ Hvc) as [w' Hc'].
      assert (Hmem : vif ∈ trim_vifs network_info (get_cnas w)).
      { rewrite <- Hv. apply list_elem_of_fmap. by exists (vif, c). }
      simpl in *. rewrite trim_vifs_filter in Hmem.
      apply list_elem_of_filter in Hmem as [Hnp Hni]. apply Hnp.
      apply Exists_exists. exists c. split; [done|].
      rewrite Hc'. by apply Hmac.
  - unfold execute. rewrite Hok. simpl. split; [|split].
    + discriminate.
    + intros Hp. apply state_ok_for_plug_spec in Hp. congruence.
    + constructor.
Qed.

End PlugVifs.

(** The management VIF is created exactly when the switch exists and none
    of the adapters handed over sits on it. *)
Lemma PlugMgmtVif_execute_creates `{MgmtVm World} (w : World)
      (vm_cnas : list CNA) :
  (PlugMgmtVif_execute w vm_cnas).2 <> None <->
  exists href, get_secure_rmc_vswitch w = Some href
               /\ Forall (fun cna_w => vswitch_uri cna_w <> href) vm_cnas.
Proof.
  unfold PlugMgmtVif_execute.
  destruct (get_secure_rmc_vswitch w) as [href|]; simpl.
  - destruct (existsb _ vm_cnas) eqn:E.
    + apply existsb_exists in E as (c & Hc & Heq).
      apply bool_decide_eq_true in Heq. apply list_elem_of_In in Hc.
      split; [done|]. intros (h & [= <-] & Hall). exfalso.
      by apply (proj1 (Forall_forall _ _) Hall c Hc).
    + destruct (crt_secure_rmc_vif w) as [w' c]. simpl. split; [|done].
      intros _. exists href. split; [done|]. apply Forall_forall.
      intros c0 Hc0 Heq. apply list_elem_of_In in Hc0.
      assert (existsb (fun cna_w => bool_decide (vswitch_uri cna_w = href))
                      vm_cnas = true); [|congruence].
      apply existsb_exists. exists c0. split; [done|].
      by apply bool_decide_eq_true.
  - split; [done|]. by intros (h & Hh & _).
Qed.

(** *** A stand-in hypervisor for the examples *)

(** The states as pypowervm spells them. *)
Definition demo_states : PartitionStates :=
  {| LPARState := string; RMCState := string;
     NOT_ACTIVATED := "not activated"; RUNNING := "running";
     ACTIVE := "active" |}.

Definition lower (c : ascii) : ascii :=
  let n := nat_of_ascii c in
  if (65 <=? n)%nat && (n <=? 90)%nat then ascii_of_nat (n + 32) else c.

Fixpoint join_pairs (l : list ascii) : list ascii :=
  match l with
  | a :: b :: ((_ :: _) as rest) => a :: b :: ":"%char :: join_pairs rest
  | _ => l
  end.

(** ["FAD4433ED120"] becomes ["fa:d4:43:3e:d1:20"]. *)
Definition demo_norm_mac (m : string) : string :=
  string_of_list_ascii
    (join_pairs
       (List.filter (fun c => negb (Ascii.eqb c ":"%char))
                    (List.map lower (list_ascii_of_string m)))).

Definition upper (c : ascii) : ascii :=
  let n := nat_of_ascii c in
  if (97 <=? n)%nat && (n <=? 122)%nat then ascii_of_nat (n - 32) else c.

(** The hypervisor is the list of adapters of the VM; creating a VIF adds
    an adapter with the MAC in the hypervisor's spelling. *)
Definition demo_vm : VmModule (list CNA) :=
  {| get_cnas := fun w => w;
     crt_vif := fun w vif =>
       let cna_w :=
         mkCNA (string_of_list_ascii
                  (List.filter (fun c => negb (Ascii.eqb c ":"%char))
                               (List.map upper
                                         (list_ascii_of_string (address vif)))))
               "vswitch0" in
       (w ++ [cna_w], cna_w);
     norm_mac := demo_norm_mac |}.

Definition demo_virt : VirtApi (list CNA) :=
  {| is_neutron := true; vif_plugging_is_fatal := true;
     vif_plugging_timeout := 300;
     wait_for_instance_event := fun _ _ => Completed [] |}.

Definition demo_world : list CNA := [mkCNA "FAD4433ED120" "vswitch0"].

Definition demo_network_info : list VIF :=
  [mkVIF "vif-1" "fa:d4:43:3e:d1:20" (Some true);
   mkVIF "vif-2" "fa:d4:43:3e:d1:21" (Some false)].

Definition demo_execute (st rmc : string) : PlugOutcome (list CNA) :=
  @execute demo_states _ demo_vm demo_virt demo_network_info demo_world
           (@mkLPAR demo_states st rmc).

Example demo_execute_not_activated :
  demo_execute "not activated" "inactive"
  = mkPlugOutcome (Ok demo_world)
                  (demo_world ++ [mkCNA "FAD4433ED121" "vswitch0"])
                  [(mkVIF "vif-2" "fa:d4:43:3e:d1:21" (Some false),
                    mkCNA "FAD4433ED121" "vswitch0")].
Proof. vm_compute. reflexivity. Qed.

Example demo_execute_running_no_rmc :
  demo_execute "running" "inactive"
  = mkPlugOutcome (Raise VirtualInterfaceCreateException) demo_world [].
Proof. vm_compute. reflexivity. Qed.

(** The returned list is older than the hypervisor's afterwards. *)
Example demo_execute_stale :
  let o := demo_execute "running" "active" in
  plug_result o = Ok demo_world
  /\ @get_cnas _ demo_vm (plug_world o)
     = demo_world ++ [mkCNA "FAD4433ED121" "vswitch0"].
Proof. vm_compute. split; reflexivity. Qed.

Lemma plug_vifs_returns_prior_cnas_witness :
  let o := demo_execute "running" "active" in
  (forall vm_cnas, plug_result o = Ok vm_cnas -> vm_cnas = demo_world)
  /\ (@pluggable demo_states (@mkLPAR demo_states "running" "active") ->
      Completed [] = Completed [] ->
      plug_result o = Ok demo_world)
  /\ Forall (fun vc => vc.2 ∉ demo_world) (plug_created o).
Proof.
  apply (@plug_vifs_returns_prior_cnas demo_states _ demo_vm demo_virt
           demo_network_info demo_world (@mkLPAR demo_states "running" "active")).
  intros w' vif Hin. unfold demo_network_info in Hin.
  apply elem_of_cons in Hin as [->|Hin]; [reflexivity|].
  apply elem_of_cons in Hin as [->|Hin]; [reflexivity|].
  by apply elem_of_nil in Hin.
Defined.

Lemma plug_vifs_state_gate_witness :
  let o := demo_execute "running" "inactive" in
  plug_result o = Raise VirtualInterfaceCreateException
  /\ plug_created o = [] /\ plug_world o = demo_world.
Proof.
  apply (proj1 (@plug_vifs_state_gate demo_states _ demo_vm demo_virt
                  demo_network_info demo_world
                  (@mkLPAR demo_states "running" "inactive"))).
  intros [Hs|[_ Hr]]; discriminate.
Defined.

Lemma plug_vifs_creates_unplugged_witness :
  plug_created
    (@execute demo_states _ demo_vm demo_virt
              [mkVIF "vif-1" "fa:d4:43:3e:d1:20" (Some true)] demo_world
              (@mkLPAR demo_states "running" "active"))
  = [].
Proof.
  apply (proj2 (@plug_vifs_creates_unplugged demo_states _ demo_vm demo_virt
                  [mkVIF "vif-1" "fa:d4:43:3e:d1:20" (Some true)] demo_world
                  (@mkLPAR demo_states "running" "active"))).
  constructor; [|constructor]. apply Exists_cons_hd. reflexivity.
Defined.

(** *** More on the two tasks *)

Section Tasks.
Context `{PartitionStates} {World : Type} `{VmModule World, !VirtApi World}.

Lemma omap_length_le {A B} (f : A -> option B) (l : list A) :
  length (omap f l) <= length l.
Proof.
  induction l as [|a l IH]; [done|].
  change (omap f (a :: l))
    with (match f a with Some y => y :: omap f l | None => omap f l end).
  destruct (f a); simpl; lia.
Qed.

Lemma run_callbacks_spec (failed : list (string * string)) :
  (run_callbacks failed = Ok tt
   /\ (failed = [] \/ vif_plugging_is_fatal = false))
  \/ (run_callbacks failed = Raise VirtualInterfaceCreateException
      /\ failed <> [] /\ vif_plugging_is_fatal = true).
Proof.
  destruct failed as [|ev rest]; [left; auto|].
  destruct vif_plugging_is_fatal eqn:Hf.
  - right. simpl. unfold _vif_callback_failed. rewrite Hf. simpl. done.
  - left. split; [|by right].
    induction (ev :: rest) as [|e l IH]; simpl; [done|].
    unfold _vif_callback_failed. rewrite Hf. simpl. done.
Qed.

(** X1: [_get_vif_events] asks for a [network-vif-plugged] event exactly
    for the VIFs of [network_info] that are marked inactive (a VIF without
    an [active] entry counts as active), and for none at all unless neutron
    is in use, VIF plugging is fatal and the plugging timeout is not zero;
    so there are never more events than VIFs. *)
Theorem get_vif_events_spec (network_info : list VIF) :
  (forall ev,
      ev ∈ _get_vif_events network_info <->
      is_neutron = true /\ vif_plugging_is_fatal = true
      /\ vif_plugging_timeout <> 0%Z
      /\ exists vif, vif ∈ network_info /\ active vif = Some false
                     /\ ev = ("network-vif-plugged", vif_id vif))
  /\ length (_get_vif_events network_info) <= length network_info.
Proof.
  unfold _get_vif_events. split.
  - intros ev.
    destruct is_neutron, vif_plugging_is_fatal; simpl;
      try (split; [by intros ?%elem_of_nil | by intros (? & ? & _)]).
    destruct (Z.eqb_spec vif_plugging_timeout 0) as [Hz|Hz]; simpl.
    + split; [by intros ?%elem_of_nil | by intros (_ & _ & ? & _)].
    + rewrite list_elem_of_omap. split.
      * intros (vif & Hin & Hev). repeat split; try done.
        exists vif. destruct (active vif) as [[|]|]; simpl in Hev;
          try discriminate. by injection Hev as <-.
      * intros (_ & _ & _ & vif & Hin & Hact & ->).
        exists vif. split; [done|]. by rewrite Hact.
  - destruct (_ && _ && _); simpl; [apply omap_length_le | lia].
Qed.

Context `{!NetworkRest.RestFaults World}.

(** The creation loop stops at a call that raises; what it raises is what
    that call raised. *)
Lemma crt_loop_raises (w : World) (crt_vifs : list VIF) (e : exn) :
  (NetworkRest.crt_loop w crt_vifs).2 = Raise e ->
  exists w1 vif w2,
    vif ∈ crt_vifs /\ NetworkRest.crt_vif_raises w1 vif = Some (w2, e).
Proof.
  revert w. induction crt_vifs as [|vif rest IH]; intros w; simpl;
    [discriminate|].
  unfold NetworkRest.crt_vif.
  destruct (NetworkRest.crt_vif_raises w vif) as [[w1 e1]|] eqn:Hf; simpl.
  - intros [= ->]. exists w, vif, w1. split; [left|done].
  - destruct (crt_vif w vif) as [w1 cna].
    specialize (IH w1).
    destruct (NetworkRest.crt_loop w1 rest) as [[w2 log] r]. simpl in *.
    intros Hr. destruct (IH Hr) as (w3 & v & w4 & Hin & Hv).
    exists w3, v, w4. split; [by right|done].
Qed.

(** The adapters made are those of the first VIFs of the list, of all of
    them when no call raised. *)
Lemma crt_loop_log (w : World) (crt_vifs : list VIF) :
  (NetworkRest.crt_loop w crt_vifs).1.2.*1 `prefix_of` crt_vifs
  /\ ((NetworkRest.crt_loop w crt_vifs).2 = Ok tt ->
      (NetworkRest.crt_loop w crt_vifs).1.2.*1 = crt_vifs).
Proof.
  revert w. induction crt_vifs as [|vif rest IH]; intros w; simpl.
  - split; [done|done].
  - unfold NetworkRest.crt_vif.
    destruct (NetworkRest.crt_vif_raises w vif) as [[w1 e1]|]; simpl.
    + split; [apply prefix_nil|discriminate].
    + destruct (crt_vif w vif) as [w1 cna].
      specialize (IH w1).
      destruct (NetworkRest.crt_loop w1 rest) as [[w2 log] r].
      cbn [fst snd] in *. rewrite fmap_cons. cbn [fst].
      destruct IH as [Hp Hall]. split.
      * by apply prefix_cons.
      * intros Hr. f_equal. by apply Hall.
Qed.

(** When no call to [vm.crt_vif] raises, the loop is the one of
    [Network]. *)
Lemma crt_loop_no_faults (w : World) (crt_vifs : list VIF) :
  (forall w' vif, NetworkRest.crt_vif_raises w' vif = None) ->
  NetworkRest.crt_loop w crt_vifs = (crt_loop w crt_vifs, Ok tt).
Proof.
  intros Hnf. revert w.
  induction crt_vifs as [|vif rest IH]; intros w; simpl; [done|].
  unfold NetworkRest.crt_vif. rewrite Hnf.
  destruct (crt_vif w vif) as [w1 cna]. rewrite IH.
  by destruct (crt_loop w1 rest).
Qed.

(** X2: [PlugVifs.execute] returns normally exactly when the LPAR is
    pluggable, no call into the hypervisor or the event machinery raised,
    the wait for the events did not time out and, if VIF plugging is fatal,
    no event failed. What it raises is
    [VirtualInterfaceCreateException], or else what [vm.get_cnas], a
    [vm.crt_vif] call or the event machinery raised, unchanged. The VIFs it
    created before an error stay created. When no call raises, the task is
    the one of [Network]. *)
Theorem execute_returns_iff (network_info : list VIF) (w : World)
        (lpar_wrap : LPARWrapper) :
  let o := NetworkRest.execute network_info w lpar_wrap in
  let events := _get_vif_events network_info in
  let crt_vifs := trim_vifs network_info (get_cnas w) in
  let run := NetworkRest.crt_loop w crt_vifs in
  (raises (plug_result o) = false <->
   pluggable lpar_wrap
   /\ NetworkRest.get_cnas_raises w = None
   /\ NetworkRest.wait_enter_raises w events = None
   /\ run.2 = Ok tt
   /\ NetworkRest.wait_exit_raises run.1.1 events = None
   /\ exists failed,
       wait_for_instance_event run.1.1 events = Completed failed
       /\ (failed = [] \/ vif_plugging_is_fatal = false))
  /\ (forall e, plug_result o = Raise e ->
        e = VirtualInterfaceCreateException
        \/ NetworkRest.get_cnas_raises w = Some e
        \/ NetworkRest.wait_enter_raises w events = Some e
        \/ (exists w1 vif w2,
              vif ∈ crt_vifs
              /\ NetworkRest.crt_vif_raises w1 vif = Some (w2, e))
        \/ NetworkRest.wait_exit_raises run.1.1 events = Some e)
  /\ (pluggable lpar_wrap ->
      NetworkRest.get_cnas_raises w = None ->
      NetworkRest.wait_enter_raises w events = None ->
      plug_created o = run.1.2 /\ plug_world o = run.1.1
      /\ (plug_created o).*1 `prefix_of` crt_vifs)
  /\ ((forall w', NetworkRest.get_cnas_raises w' = None) ->
      (forall w' vif, NetworkRest.crt_vif_raises w' vif = None) ->
      (forall w' evs, NetworkRest.wait_enter_raises w' evs = None) ->
      (forall w' evs, NetworkRest.wait_exit_raises w' evs = None) ->
      o = execute network_info w lpar_wrap).
Proof.
  simpl. unfold NetworkRest.execute, NetworkRest.get_cnas, execute.
  pose proof (crt_loop_raises w (trim_vifs network_info (get_cnas w))) as Hrs.
  pose proof (crt_loop_log w (trim_vifs network_info (get_cnas w)))
    as [Hpre _].
  pose proof (crt_loop_no_faults w (trim_vifs network_info (get_cnas w)))
    as Hnf.
  destruct (state_ok_for_plug lpar_wrap) eqn:Hok; simpl.
  - pose proof (proj1 (state_ok_for_plug_spec lpar_wrap) Hok) as Hp.
    destruct (NetworkRest.get_cnas_raises w) as [e1|] eqn:Hg; simpl.
    { split; [split; [discriminate|by intros (_ & ? & _)]|].
      split; [intros e [= <-]; auto|]. split; [done|].
      intros Hg'. by rewrite Hg' in Hg. }
    destruct (NetworkRest.wait_enter_raises w _) as [e2|] eqn:He; simpl.
    { split; [split; [discriminate|by intros (_ & _ & ? & _)]|].
      split; [intros e [= <-]; auto|]. split; [done|].
      intros _ _ He'. by rewrite He' in He. }
    destruct (NetworkRest.crt_loop w _) as [[w' log] [[]|e3]] eqn:Hrun;
      simpl in *.
    2:{ split; [split; [discriminate|by intros (_ & _ & _ & ? & _)]|].
        split; [intros e [= <-]; right; right; right; left; by apply Hrs|].
        split; [done|].
        intros _ Hc. by specialize (Hnf Hc). }
    destruct (NetworkRest.wait_exit_raises w' _) as [e4|] eqn:Hx; simpl.
    { split; [split; [discriminate|by intros (_ & _ & _ & _ & ? & _)]|].
      split; [intros e [= <-]; auto 6|]. split; [done|].
      intros _ _ _ Hx'. by rewrite Hx' in Hx. }
    assert (Hlast :
      (forall w0, NetworkRest.get_cnas_raises w0 = None) ->
      (forall w0 vif, NetworkRest.crt_vif_raises w0 vif = None) ->
      crt_loop w (trim_vifs network_info (get_cnas w)) = (w', log)).
    { intros _ Hc. specialize (Hnf Hc). by injection Hnf as <-. }
    destruct (wait_for_instance_event w' _) as [failed|] eqn:Hw; simpl.
    + destruct (run_callbacks_spec failed) as [[Hr Hc]|[Hr [Hne Hf]]];
        rewrite Hr; simpl.
      * split; [split; [intros _|done]|].
        { do 5 (split; [done|]). by exists failed. }
        split; [discriminate|]. split; [done|].
        intros Hg' Hc' _ _. rewrite (Hlast Hg' Hc'), Hw, Hr. done.
      * split; [split; [discriminate|]|].
        { intros (_ & _ & _ & _ & _ & f & [= <-] & [Hnil|Hnf']);
            congruence. }
        split; [intros e [= <-]; by left|]. split; [done|].
        intros Hg' Hc' _ _. rewrite (Hlast Hg' Hc'), Hw, Hr. done.
    + split; [split; [discriminate|]|].
      { by intros (_ & _ & _ & _ & _ & f & Hf & _). }
      split; [intros e [= <-]; by left|]. split; [done|].
      intros Hg' Hc' _ _. by rewrite (Hlast Hg' Hc'), Hw.
  - assert (Hnp : ~ pluggable lpar_wrap).
    { rewrite <- state_ok_for_plug_spec. congruence. }
    split; [split; [discriminate|by intros [Hp _]]|].
    split; [intros e [= <-]; by left|]. split; [done|done].
Qed.

Context `{!MgmtVm World}.

(** X3: [PlugMgmtVif.execute] creates the management VIF exactly when the
    host has a management switch and none of the adapters it is handed sits
    on that switch; then its result is the adapter that
    [vm.crt_secure_rmc_vif] made, and otherwise it returns [None] and
    leaves the hypervisor alone. *)
Theorem PlugMgmtVif_execute_spec (w : World) (vm_cnas : list CNA) :
  let r := PlugMgmtVif_execute w vm_cnas in
  let wanted :=
    exists href, get_secure_rmc_vswitch w = Some href
                 /\ Forall (fun cna_w => vswitch_uri cna_w <> href) vm_cnas in
  (r.2 <> None <-> wanted)
  /\ (wanted -> r = ((crt_secure_rmc_vif w).1, Some (crt_secure_rmc_vif w).2))
  /\ (~ wanted -> r = (w, None)).
Proof.
  simpl. split; [apply PlugMgmtVif_execute_creates|].
  pose proof (PlugMgmtVif_execute_creates w vm_cnas) as Hiff.
  unfold PlugMgmtVif_execute in *.
  destruct (get_secure_rmc_vswitch w) as [href|]; simpl in *.
  - destruct (existsb _ vm_cnas); simpl in *.
    + split; [|done]. intros Hw. apply Hiff in Hw. done.
    + destruct (crt_secure_rmc_vif w) as [w' c]. simpl in *.
      split; [done|]. intros Hn. destruct Hn. by apply Hiff.
  - split; [|done]. by intros (h & Hh & _).
Qed.

(** X4: when [PlugMgmtVif] runs on what [PlugVifs] returned, as in the flow
    of [spawn], the management VIF is created exactly when the management
    switch exists and no adapter that the VM had before [PlugVifs] ran sits
    on it: adapters that [PlugVifs] has just created do not count. *)
Theorem mgmt_vif_decided_on_prior_cnas (network_info : list VIF) (w : World)
        (lpar_wrap : LPARWrapper) (vm_cnas : list CNA) :
  let o := execute network_info w lpar_wrap in
  plug_result o = Ok vm_cnas ->
  ((PlugMgmtVif_execute (plug_world o) vm_cnas).2 <> None <->
   exists href, get_secure_rmc_vswitch (plug_world o) = Some href
                /\ Forall (fun cna_w => vswitch_uri cna_w <> href)
                          (get_cnas w)).
Proof.
  simpl. intros Hres.
  assert (vm_cnas = get_cnas w) as ->.
  { destruct (state_ok_for_plug lpar_wrap) eqn:Hok.
    - destruct (execute_ok network_info w lpar_wrap Hok) as (_ & _ & Hr & _).
      destruct Hr as [Hr|Hr]; congruence.
    - unfold execute in Hres. rewrite Hok in Hres. discriminate. }
  apply PlugMgmtVif_execute_creates.
Qed.

End Tasks.

(** The management switch is the one the stand-in creates adapters on. *)
Definition demo_mgmt : MgmtVm (list CNA) :=
  {| get_secure_rmc_vswitch := fun _ => Some "vswitch0";
     crt_secure_rmc_vif := fun w =>
       let c := mkCNA "6A1B2C3D4E5F" "vswitch0" in (w ++ [c], c) |}.

Definition demo_new_vm : PlugOutcome (list CNA) :=
  @execute demo_states _ demo_vm demo_virt demo_network_info []
           (@mkLPAR demo_states "not activated" "inactive").

(** On a new VM both VIFs are created on [vswitch0], and the management VIF
    is created on it all the same. *)
Example demo_new_vm_mgmt_vif :
  plug_result demo_new_vm = Ok []
  /\ List.map vswitch_uri (plug_world demo_new_vm) = ["vswitch0"; "vswitch0"]
  /\ (@PlugMgmtVif_execute _ demo_mgmt (plug_world demo_new_vm) []).2
     = Some (mkCNA "6A1B2C3D4E5F" "vswitch0").
Proof. vm_compute. repeat split; reflexivity. Qed.

Lemma mgmt_vif_decided_on_prior_cnas_witness :
  (@PlugMgmtVif_execute _ demo_mgmt (plug_world demo_new_vm) []).2 <> None <->
  exists href,
    @get_secure_rmc_vswitch _ demo_mgmt (plug_world demo_new_vm) = Some href
    /\ Forall (fun cna_w => vswitch_uri cna_w <> href) [].
Proof.
  exact (@mgmt_vif_decided_on_prior_cnas demo_states _ demo_vm demo_virt
           demo_mgmt demo_network_info []
           (@mkLPAR demo_states "not activated" "inactive") [] eq_refl).
Defined.

End NetworkSpec.

(** ** mgmt.py *)

Module MgmtSpec.
Import Mgmt.

(** *** Slices of strings *)

Lemma substring_all (s : string) (n : nat) :
  String.length s <= n -> substring 0 n s = s.
Proof.
  revert n. induction s as [|c s IH]; intros [|n] Hn; simpl in *;
    try reflexivity; try lia.
  f_equal. apply IH. lia.
Qed.

Lemma append_nil_l (s : string) : "" +:+ s = s.
Proof. reflexivity. Qed.

Lemma append_String (c : ascii) (s t : string) :
  String c s +:+ t = String c (s +:+ t).
Proof. reflexivity. Qed.

Lemma substring_split (s : string) (k n : nat) :
  k <= String.length s -> String.length s <= k + n ->
  s = substring 0 k s +:+ substring k n s.
Proof.
  revert k. induction s as [|c s IH]; intros k Hk Hn; simpl in *.
  - assert (k = 0) as -> by lia. by destruct n.
  - destruct k as [|k]; simpl.
    + destruct n as [|n]; [lia|]. simpl. rewrite append_nil_l. f_equal.
      symmetry. apply substring_all. lia.
    + rewrite append_String. f_equal. apply IH; lia.
Qed.

Lemma substring_length (s : string) (k n : nat) :
  String.length (substring k n s) = Nat.min n (String.length s - k).
Proof.
  revert k n. induction s as [|c s IH]; intros k n; simpl.
  - by destruct k, n.
  - destruct k as [|k]; simpl.
    + destruct n as [|n]; simpl; [done|]. rewrite IH. f_equal. f_equal. lia.
    + by rewrite IH.
Qed.

(** [s[-n:]] is a suffix of [s] ... *)
Lemma last_chars_suffix (n : nat) (s : string) :
  exists pre, s = pre +:+ last_chars n s.
Proof.
  exists (substring 0 (String.length s - n) s). unfold last_chars.
  apply substring_split; lia.
Qed.

(** ... of [n] characters, or all of [s]. *)
Lemma last_chars_length (n : nat) (s : string) :
  String.length (last_chars n s) = Nat.min n (String.length s).
Proof. unfold last_chars. rewrite substring_length. lia. Qed.

(** *** The slot number *)

Lemma lslot_bits (mapping : VSCSIMapping) (i : Z) :
  (0 <= i)%Z ->
  Z.testbit (lslot mapping) i
  = orb (bool_decide (i = 28%Z \/ i = 29%Z))
        (Z.testbit (slot_number (client_adapter mapping)) i).
Proof.
  intros Hi. unfold lslot. rewrite Z.lor_spec. f_equal.
  change 0x30000000%Z with (3 * 2 ^ 28)%Z.
  rewrite Z.mul_pow2_bits by lia.
  destruct (decide (i = 28%Z)) as [->|]; [done|].
  destruct (decide (i = 29%Z)) as [->|]; [done|].
  rewrite bool_decide_eq_false_2 by lia.
  destruct (Z.lt_ge_cases i 28) as [Hlt|Hge].
  - apply Z.testbit_neg_r. lia.
  - apply Z.bits_above_log2; [lia|]. change (Z.log2 3) with 1%Z. lia.
Qed.

(** For the slot numbers below [2^28] the bitwise or is an addition. *)
Lemma lslot_small (mapping : VSCSIMapping) :
  (0 <= slot_number (client_adapter mapping) < 2 ^ 28)%Z ->
  lslot mapping = (0x30000000 + slot_number (client_adapter mapping))%Z.
Proof.
  intros Hs. unfold lslot. rewrite <- Z.add_lor_land.
  replace (Z.land _ _) with 0%Z; [lia|].
  symmetry. apply Z.bits_inj'. intros i Hi.
  rewrite Z.land_spec, Z.bits_0.
  change 0x30000000%Z with (3 * 2 ^ 28)%Z.
  destruct (Z.lt_ge_cases i 28) as [Hlt|Hge].
  - by rewrite Z.mul_pow2_bits_low.
  - rewrite <- (Z.mod_small (slot_number _) (2 ^ 28)) by done.
    rewrite Z.mod_pow2_bits_high by lia. apply andb_false_r.
Qed.

Section Discover.
Context `{OS World}.

Lemma discover_world (w : World) (mapping : VSCSIMapping) :
  (discover_vscsi_disk w mapping).1 = scan_bus w mapping.
Proof.
  unfold discover_vscsi_disk.
  destruct (negb _); [done|]. by destruct (_ !! _).
Qed.

(** C10: [discover_vscsi_disk] scans the bus of the slot
    [0x30000000 | slot_number], looks for the entries of [/dev/disk/by-id]
    whose name ends with the last 32 characters of the UDID of the backing
    storage, raises [UniqueDiskDiscoveryException] if and only if the number
    of entries found differs from one, and otherwise returns the real path
    of the single entry. *)
Theorem discover_vscsi_disk_spec (w : World) (mapping : VSCSIMapping) :
  let slot := slot_number (client_adapter mapping) in
  let u := udid (backing_storage mapping) in
  let scan :=
    "/sys/bus/vio/devices/" +:+ fmt_x (Z.lor 0x30000000 slot)
      +:+ "/host*/scsi_host/host*/scan" in
  let w1 :=
    fold_left (fun w' scanpath => echo_scsi_command w' scanpath "- - -")
              (glob w scan) w in
  let disks := glob w1 ("/dev/disk/by-id/*" +:+ last_chars 32 u) in
  let r := discover_vscsi_disk w mapping in
  (exists pre, u = pre +:+ last_chars 32 u)
  /\ String.length (last_chars 32 u) = Nat.min 32 (String.length u)
  /\ r.1 = w1
  /\ ((exists p n, r.2 = Raise (UniqueDiskDiscoveryException p n))
      <-> length disks <> 1)
  /\ (raises r.2 = true <-> length disks <> 1)
  /\ (forall d, disks = [d] -> r.2 = Ok (realpath w1 d)).
Proof.
  simpl. split; [apply last_chars_suffix|].
  split; [apply last_chars_length|].
  split; [apply discover_world|].
  unfold discover_vscsi_disk, scan_bus, dpathpat, scan_pattern, disk_udid,
    lslot.
  set (w1 := fold_left _ _ w).
  destruct (glob w1 _) as [|d [|d' l]]; simpl.
  - repeat split; try done; try lia; eauto.
  - repeat split; try done; try lia.
    + intros (p & n & Hpn). discriminate.
    + by intros d0 [= ->].
  - repeat split; try done; try lia; eauto.
Qed.

End Discover.

(** *** Examples *)

Example fmt_x_slot2 :
  fmt_x (lslot (mkVSCSIMapping (mkClientAdapter 2) (mkStorage "")))
  = "30000002".
Proof. reflexivity. Qed.

Example last_chars_udid :
  last_chars 32
    "274d7bb790666211e3bc1a00006cae8b01ac18997ab9bc23fb24756e9713a93f90"
  = "ac18997ab9bc23fb24756e9713a93f90".
Proof. vm_compute. reflexivity. Qed.

Example last_chars_short : last_chars 32 "abc" = "abc".
Proof. reflexivity. Qed.

(** A stand-in management partition: the devices under [/dev/disk/by-id],
    and those that a scan of the bus brings in. *)
Record DemoOS := mkDemoOS {
  by_id : list (string * string);
  behind_bus : list (string * string)
}.

Definition ends_with (suffix s : string) : bool :=
  bool_decide (last_chars (String.length suffix) s = suffix)
  && (String.length suffix <=? String.length s)%nat.

Definition demo_scan_path : string :=
  "/sys/bus/vio/devices/30000002/host0/scsi_host/host0/scan".

Definition demo_os : OS DemoOS :=
  {| glob := fun w pat =>
       if ends_with "/host*/scsi_host/host*/scan" pat then [demo_scan_path]
       else
         List.map fst
           (List.filter
              (fun e => ends_with (substring 17 (String.length pat - 17) pat)
                                  (fst e))
              (by_id w));
     echo_scsi_command := fun w _ _ =>
       mkDemoOS (by_id w ++ behind_bus w) [];
     realpath := fun w p =>
       default p (snd <$> List.find (fun e => bool_decide (fst e = p))
                                     (by_id w)) |}.

Definition demo_mapping : VSCSIMapping :=
  mkVSCSIMapping
    (mkClientAdapter 2)
    (mkStorage
       "274d7bb790666211e3bc1a00006cae8b01ac18997ab9bc23fb24756e9713a93f90").

Definition demo_disk : string * string :=
  ("/dev/disk/by-id/scsi-SIBM_3303_NVDISKac18997ab9bc23fb24756e9713a93f90",
   "/dev/sdg").

(** The disk shows up with the scan and is found. *)
Example demo_discover_found :
  @discover_vscsi_disk _ demo_os (mkDemoOS [] [demo_disk]) demo_mapping
  = (mkDemoOS [demo_disk] [], Ok "/dev/sdg").
Proof. vm_compute. reflexivity. Qed.

Example demo_discover_none :
  @discover_vscsi_disk _ demo_os (mkDemoOS [] []) demo_mapping
  = (mkDemoOS [] [],
     Raise (UniqueDiskDiscoveryException
              "/dev/disk/by-id/*ac18997ab9bc23fb24756e9713a93f90" 0)).
Proof. vm_compute. reflexivity. Qed.

Example demo_discover_two :
  (@discover_vscsi_disk _ demo_os
     (mkDemoOS [demo_disk]
               [("/dev/disk/by-id/wwn-0xac18997ab9bc23fb24756e9713a93f90",
                 "/dev/sdg")])
     demo_mapping).2
  = Raise (UniqueDiskDiscoveryException
             "/dev/disk/by-id/*ac18997ab9bc23fb24756e9713a93f90" 2).
Proof. vm_compute. reflexivity. Qed.

Lemma discover_vscsi_disk_spec_witness :
  (@discover_vscsi_disk _ demo_os (mkDemoOS [] [demo_disk]) demo_mapping).2
  = Ok "/dev/sdg".
Proof.
  pose proof (@discover_vscsi_disk_spec _ demo_os (mkDemoOS [] [demo_disk])
                demo_mapping) as Hspec.
  cbv zeta in Hspec. destruct Hspec as (_ & _ & _ & _ & _ & Hfound).
  apply (Hfound (fst demo_disk)). vm_compute. reflexivity.
Defined.

(** *** More on the management partition *)

(** X18: for a client slot number below [2^28] the Linux slot number is
    [0x30000000] plus the slot number, its hexadecimal digit above the low
    seven is 3, and the slot number is read back from its low 28 bits. *)
Theorem lslot_roundtrip (mapping : VSCSIMapping) :
  (0 <= slot_number (client_adapter mapping) < 2 ^ 28)%Z ->
  lslot mapping = (0x30000000 + slot_number (client_adapter mapping))%Z
  /\ Z.land (lslot mapping) 0x0FFFFFFF = slot_number (client_adapter mapping)
  /\ Z.shiftr (lslot mapping) 28 = 3%Z.
Proof.
  intros Hs. rewrite (lslot_small mapping Hs).
  set (n := slot_number (client_adapter mapping)) in *.
  split; [done|]. split.
  - change 0x0FFFFFFF%Z with (Z.ones 28). rewrite Z.land_ones by lia.
    change 0x30000000%Z with (3 * 2 ^ 28)%Z.
    rewrite Z.add_comm, Z.mod_add by lia. apply Z.mod_small. lia.
  - rewrite Z.shiftr_div_pow2 by lia.
    change 0x30000000%Z with (3 * 2 ^ 28)%Z.
    rewrite Z.div_add_l by lia. rewrite Z.div_small by lia. lia.
Qed.

Lemma lslot_roundtrip_witness :
  lslot demo_mapping = (0x30000000 + 2)%Z
  /\ Z.land (lslot demo_mapping) 0x0FFFFFFF = 2%Z
  /\ Z.shiftr (lslot demo_mapping) 28 = 3%Z.
Proof. apply (lslot_roundtrip demo_mapping). simpl. lia. Defined.

(** X19: [get_mgmt_partition] returns a partition exactly when the search
    for management partitions yields that partition and no other; for no
    result or several it raises its one exception, and it never fails on
    the index. *)
Theorem get_mgmt_partition_spec `{LPARSearch World} (w : World) :
  let r := get_mgmt_partition w in
  (forall lpar_w, r = Ok lpar_w <-> search_mgmt_partition w = [lpar_w])
  /\ (r = Raise (OtherException
                   "Unable to find a single management partition.")
      <-> length (search_mgmt_partition w) <> 1)
  /\ r <> Raise IndexError.
Proof.
  simpl. unfold get_mgmt_partition.
  destruct (search_mgmt_partition w) as [|x [|y l]]; simpl.
  - repeat split; try done.
  - repeat split; try done; try (by intros [= ->]).
  - repeat split; try done.
Qed.

End MgmtSpec.

(** ** The regular expressions of [driver.py] *)

Module RegexSpec.
Import Regex.

Create HintDb re.
#[local] Hint Constructors matches : re.

Lemma matches_empty_inv (u : list ascii) : ~ matches Empty u.
Proof. inversion 1. Qed.

Lemma matches_eps_inv (u : list ascii) : matches Eps u -> u = [].
Proof. by inversion 1. Qed.

Lemma matches_cat_inv (r1 r2 : regex) (s : list ascii) :
  matches (Cat r1 r2) s ->
  exists u v, s = u ++ v /\ matches r1 u /\ matches r2 v.
Proof. inversion 1; subst. eauto. Qed.

Lemma matches_alt_inv (r1 r2 : regex) (s : list ascii) :
  matches (Alt r1 r2) s -> matches r1 s \/ matches r2 s.
Proof. inversion 1; subst; auto. Qed.

Lemma nullable_spec (r : regex) : nullable r = true <-> matches r [].
Proof.
  induction r as [| | c | |r1 IH1 r2 IH2|r1 IH1 r2 IH2|r IH]; simpl.
  - split; [discriminate | inversion 1].
  - split; auto with re.
  - split; [discriminate | inversion 1].
  - split; [discriminate | inversion 1].
  - rewrite andb_true_iff, IH1, IH2. split.
    + intros [H1 H2]. change (@nil ascii) with (@nil ascii ++ []).
      by constructor.
    + intros (u & v & Huv & Hu & Hv)%matches_cat_inv.
      symmetry in Huv. apply app_eq_nil in Huv as [-> ->]. done.
  - rewrite orb_true_iff, IH1, IH2. split.
    + intros [?|?]; auto with re.
    + apply matches_alt_inv.
  - split; auto with re.
Qed.

Lemma alt_spec (r1 r2 : regex) (s : list ascii) :
  matches (alt r1 r2) s <-> matches r1 s \/ matches r2 s.
Proof.
  split.
  - intros Hm.
    assert (Hcases : alt r1 r2 = r2 \/ alt r1 r2 = r1 \/ alt r1 r2 = Alt r1 r2)
      by (destruct r1, r2; simpl; auto).
    destruct Hcases as [E|[E|E]]; rewrite E in Hm; auto.
    by apply matches_alt_inv.
  - intros [Hm|Hm].
    + destruct r1; try (by inversion Hm);
        destruct r2; simpl; auto with re.
    + destruct r2; try (by inversion Hm);
        destruct r1; simpl; auto with re.
Qed.

Lemma cat_spec (r1 r2 : regex) (s : list ascii) :
  matches (cat r1 r2) s <->
  exists u v, s = u ++ v /\ matches r1 u /\ matches r2 v.
Proof.
  split.
  - intros Hm.
    destruct (decide (r1 = Empty)) as [->|N1]; [by inversion Hm|].
    destruct (decide (r2 = Empty)) as [->|N2].
    { destruct r1; by inversion Hm. }
    destruct (decide (r1 = Eps)) as [->|N3].
    { exists [], s. split; [done|]. split; [constructor|].
      by destruct r2. }
    destruct (decide (r2 = Eps)) as [->|N4].
    { exists s, []. rewrite app_nil_r. split; [done|]. split; [|constructor].
      by destruct r1. }
    apply matches_cat_inv. by destruct r1, r2.
  - intros (u & v & -> & Hu & Hv).
    destruct (decide (r1 = Empty)) as [->|N1]; [by inversion Hu|].
    destruct (decide (r2 = Empty)) as [->|N2]; [by inversion Hv|].
    destruct (decide (r1 = Eps)) as [->|N3].
    { apply matches_eps_inv in Hu as ->. by destruct r2. }
    destruct (decide (r2 = Eps)) as [->|N4].
    { apply matches_eps_inv in Hv as ->. rewrite app_nil_r. by destruct r1. }
    assert (cat r1 r2 = Cat r1 r2) as -> by (by destruct r1, r2).
    by constructor.
Qed.

(** A non-empty word of a star starts with a non-empty word of the body. *)
Lemma matches_star_cons_inv (r : regex) (c : ascii) (s : list ascii) :
  matches (Star r) (c :: s) ->
  exists u v, s = u ++ v /\ matches r (c :: u) /\ matches (Star r) v.
Proof.
  intros Hm. remember (Star r) as r' eqn:Er. remember (c :: s) as w eqn:Ew.
  revert c s Ew. induction Hm as [| | | | | | |r0 u v Hu _ Hv IHv];
    intros a t Ew; try discriminate.
  injection Er as ->. destruct u as [|a' u]; simpl in Ew.
  - by apply IHv.
  - injection Ew as -> <-. eauto.
Qed.

Lemma deriv_spec (c : ascii) (r : regex) (s : list ascii) :
  matches (deriv c r) s <-> matches r (c :: s).
Proof.
  revert s.
  induction r as [| | d | |r1 IH1 r2 IH2|r1 IH1 r2 IH2|r IH]; intros s; simpl.
  - split; inversion 1.
  - split; inversion 1.
  - destruct (Ascii.eqb_spec c d) as [->|Hne]; split; inversion 1; subst;
      try constructor; congruence.
  - destruct (Ascii.eqb_spec c newline) as [->|Hne]; split; inversion 1; subst;
      try constructor; congruence.
  - rewrite alt_spec, cat_spec. split.
    + intros [(u & v & -> & Hu & Hv)|Hm].
      * apply IH1 in Hu. change (c :: u ++ v) with ((c :: u) ++ v).
        by constructor.
      * destruct (nullable r1) eqn:Hn; [|by inversion Hm].
        apply nullable_spec in Hn. apply IH2 in Hm.
        change (c :: s) with ([] ++ c :: s). by constructor.
    + intros (u & v & Huv & Hu & Hv)%matches_cat_inv.
      destruct u as [|c' u]; simpl in Huv.
      * subst v. right. apply nullable_spec in Hu. rewrite Hu. by apply IH2.
      * injection Huv as <- ->. left. exists u, v. by rewrite IH1.
  - rewrite alt_spec, IH1, IH2. split.
    + intros [?|?]; auto with re.
    + apply matches_alt_inv.
  - rewrite cat_spec. split.
    + intros (u & v & -> & Hu & Hv). apply IH in Hu.
      change (c :: u ++ v) with ((c :: u) ++ v). by constructor.
    + intros (u & v & -> & Hu & Hv)%matches_star_cons_inv.
      exists u, v. by rewrite IH.
Qed.

(** [match_prefix] decides whether a prefix of the text is a word. *)
Lemma match_prefix_spec (r : regex) (s : list ascii) :
  match_prefix r s = true <-> exists u v, s = u ++ v /\ matches r u.
Proof.
  revert r. induction s as [|c s IH]; intros r; simpl.
  - rewrite orb_false_r, nullable_spec. split.
    + intros Hm. by exists [], [].
    + intros (u & v & Huv & Hu). symmetry in Huv.
      apply app_eq_nil in Huv as [-> ->]. done.
  - rewrite orb_true_iff, nullable_spec, IH. split.
    + intros [Hm|(u & v & -> & Hu)].
      * by exists [], (c :: s).
      * exists (c :: u), v. by rewrite <- deriv_spec.
    + intros (u & v & Huv & Hu). destruct u as [|c' u]; simpl in Huv.
      * by left.
      * injection Huv as <- ->. right. exists u, v. by rewrite deriv_spec.
Qed.

(** [search] decides whether a factor of the text is a word. *)
Lemma search_spec (r : regex) (s : list ascii) :
  search r s = true <-> exists p u v, s = p ++ u ++ v /\ matches r u.
Proof.
  induction s as [|c s IH]; cbn [search].
  - rewrite orb_false_r, match_prefix_spec. split.
    + intros (u & v & Huv & Hu). by exists [], u, v.
    + intros (p & u & v & Hs & Hu). destruct p; [|done]. by exists u, v.
  - rewrite orb_true_iff, match_prefix_spec, IH. split.
    + intros [(u & v & Huv & Hu)|(p & u & v & -> & Hu)].
      * by exists [], u, v.
      * by exists (c :: p), u, v.
    + intros (p & u & v & Hs & Hu). destruct p as [|c' p]; simpl in Hs.
      * left. by exists u, v.
      * injection Hs as <- ->. right. by exists p, u, v.
Qed.

(** *** The shapes that [compile] produces *)

(** A run of ordinary characters in front of [r]. *)
Definition lits (l : list ascii) (r : regex) : regex :=
  foldr (fun c r' => Cat (Lit c) r') r l.

Definition no_newline (u : list ascii) : Prop :=
  Forall (fun c => c <> newline) u.

Lemma matches_lits (l : list ascii) (r : regex) (u : list ascii) :
  matches (lits l r) u <-> exists v, u = l ++ v /\ matches r v.
Proof.
  revert u. induction l as [|c l IH]; intros u; simpl.
  - split; [by exists u | by intros (v & -> & Hv)].
  - split.
    + intros (a & b & -> & Ha & Hb)%matches_cat_inv.
      inversion Ha; subst. apply IH in Hb as (v & -> & Hv). by exists v.
    + intros (v & -> & Hv). change (c :: l ++ v) with ([c] ++ (l ++ v)).
      constructor; [constructor|]. apply IH. by exists v.
Qed.

Lemma matches_star_dot (u : list ascii) :
  matches (Star Dot) u <-> no_newline u.
Proof.
  unfold no_newline. split.
  - intros Hm. remember (Star Dot) as r eqn:Er.
    induction Hm as [| | | | | | |r0 a b Ha _ Hb IHb]; try discriminate.
    + constructor.
    + injection Er as ->. apply Forall_app. split; [|by apply IHb].
      inversion Ha; subst. by repeat constructor.
  - induction 1 as [|c l Hc Hl IH]; [constructor|].
    change (c :: l) with ([c] ++ l). constructor; [by constructor|done].
Qed.

Lemma matches_dot_star_then (r : regex) (u : list ascii) :
  matches (Cat (Star Dot) r) u <->
  exists a v, u = a ++ v /\ no_newline a /\ matches r v.
Proof.
  split.
  - intros (a & v & -> & Ha & Hv)%matches_cat_inv.
    exists a, v. by rewrite <- matches_star_dot.
  - intros (a & v & -> & Ha & Hv). constructor; [|done].
    by apply matches_star_dot.
Qed.

End RegexSpec.

(** ** driver.py *)

Module DriverSpec.
Import Regex RegexSpec Driver.

(** *** The request paths that [destroy] takes for the partition *)

Definition chars (s : string) : list ascii := list_ascii_of_string s.

(** A request path is that of a LogicalPartition resource when it holds
    [/ManagedSystem/], later [/LogicalPartition/] and later four dashes,
    with no line break from the first to the last of them. *)
Definition lpar_path (p : string) : Prop :=
  exists pre a b c d e post,
    chars p
    = pre ++ chars "/ManagedSystem/" ++ a ++ chars "/LogicalPartition/" ++ b
          ++ chars "-" ++ c ++ chars "-" ++ d ++ chars "-" ++ e ++ chars "-"
          ++ post
    /\ no_newline a /\ no_newline b /\ no_newline c /\ no_newline d
    /\ no_newline e.

Lemma exp_shape :
  compile (chars exp)
  = lits (chars "/ManagedSystem/")
      (Cat (Star Dot)
         (lits (chars "/LogicalPartition/")
            (Cat (Star Dot)
               (lits (chars "-")
                  (Cat (Star Dot)
                     (lits (chars "-")
                        (Cat (Star Dot)
                           (lits (chars "-")
                              (Cat (Star Dot)
                                 (lits (chars "-")
                                    (Cat (Star Dot) Eps))))))))))).
Proof. reflexivity. Qed.

(** [re.search(exp, path)] succeeds exactly on the paths of LogicalPartition
    resources. *)
Lemma re_search_exp (p : string) :
  re_search exp p = true <-> lpar_path p.
Proof.
  unfold re_search, lpar_path. fold (chars exp) (chars p).
  rewrite search_spec, exp_shape. split.
  - intros (pre & u & v & Hs & Hu).
    apply matches_lits in Hu as (u1 & -> & Hu).
    apply matches_dot_star_then in Hu as (a & u2 & -> & Ha & Hu).
    apply matches_lits in Hu as (u3 & -> & Hu).
    apply matches_dot_star_then in Hu as (b & u4 & -> & Hb & Hu).
    apply matches_lits in Hu as (u5 & -> & Hu).
    apply matches_dot_star_then in Hu as (c & u6 & -> & Hc & Hu).
    apply matches_lits in Hu as (u7 & -> & Hu).
    apply matches_dot_star_then in Hu as (d & u8 & -> & Hd & Hu).
    apply matches_lits in Hu as (u9 & -> & Hu).
    apply matches_dot_star_then in Hu as (e & u10 & -> & He & Hu).
    apply matches_lits in Hu as (u11 & -> & Hu).
    exists pre, a, b, c, d, e, (u11 ++ v).
    rewrite Hs. repeat split; try done.
    by rewrite <- !app_assoc.
  - intros (pre & a & b & c & d & e & post & Hs & Ha & Hb & Hc & Hd & He).
    exists pre,
      (chars "/ManagedSystem/" ++ a ++ chars "/LogicalPartition/" ++ b
             ++ chars "-" ++ c ++ chars "-" ++ d ++ chars "-" ++ e
             ++ chars "-" ++ []),
      post.
    split; [rewrite Hs; by rewrite <- !app_assoc|].
    apply matches_lits. eexists. split; [done|].
    apply matches_dot_star_then. eexists _, _. split; [done|]. split; [done|].
    apply matches_lits. eexists. split; [done|].
    apply matches_dot_star_then. eexists _, _. split; [done|]. split; [done|].
    apply matches_lits. eexists. split; [done|].
    apply matches_dot_star_then. eexists _, _. split; [done|]. split; [done|].
    apply matches_lits. eexists. split; [done|].
    apply matches_dot_star_then. eexists _, _. split; [done|]. split; [done|].
    apply matches_lits. eexists. split; [done|].
    apply matches_dot_star_then. eexists _, _. split; [done|]. split; [done|].
    apply matches_lits. eexists. split; [done|].
    apply matches_dot_star_then. exists [], [].
    repeat split; constructor.
Qed.

Example lpar_request_path :
  re_search exp
    ("/rest/api/uom/ManagedSystem/67dca605-3923-34da-bd8f-26a378fc817f"
       +:+ "/LogicalPartition/0A68CFAB-F62B-46D4-A6A0-F4EBE0264AD5")
  = true.
Proof. vm_compute. reflexivity. Qed.

Example vios_request_path :
  re_search exp
    ("/rest/api/uom/ManagedSystem/67dca605-3923-34da-bd8f-26a378fc817f"
       +:+ "/VirtualIOServer/10B06F4B-437D-9C18-CA95-34006424120D")
  = false.
Proof. vm_compute. reflexivity. Qed.

Example lpar_feed_path :
  re_search exp
    "/rest/api/uom/ManagedSystem/67dca605-3923-34da-bd8f-26a378fc817f/LogicalPartition"
  = false.
Proof. vm_compute. reflexivity. Qed.

(** *** spawn *)

(** The two tasks that [spawn] adds for a volume of the mapping. *)
Definition volume_tasks (self : PowerVMDriver) (bdm : BDM) : list Task :=
  match connection_info bdm with
  | Some conn_info =>
      [tf_stg_ConnectVolume (vol_drv_for self conn_info) conn_info;
       tf_stg_SaveBDM bdm]
  | None => []
  end.

Lemma spawn_volumes_spec (self : PowerVMDriver) (bdms : list BDM)
      (flow : list Task) :
  Forall (fun bdm => is_Some (connection_info bdm)) bdms ->
  spawn_volumes self bdms flow
  = Ok (flow ++ flat_map (volume_tasks self) bdms).
Proof.
  intros Hall. revert flow.
  induction Hall as [|bdm l [ci Hci] _ IH]; intros flow; simpl.
  - by rewrite app_nil_r.
  - unfold volume_tasks at 1. rewrite Hci, IH. unfold flow_add.
    by rewrite <- !app_assoc.
Qed.

(** A mapping entry without connection data stops [spawn] while it still
    defines the flow. *)
Lemma spawn_volumes_no_conn_info (self : PowerVMDriver) (bdms : list BDM)
      (flow : list Task) :
  Exists (fun bdm => connection_info bdm = None) bdms ->
  spawn_volumes self bdms flow = Raise AttributeError.
Proof.
  intros Hex. revert flow.
  induction Hex as [bdm l Hnone|bdm l _ IH]; intros flow; simpl.
  - by rewrite Hnone.
  - by destruct (connection_info bdm).
Qed.

Section Flows.
Context `{Nova} `{Engine World}.

(** C5: [spawn] runs a linear flow whose tasks are, in this order: create
    the LPAR, plug the VIFs, plug the management VIF, then, unless the
    instance boots from a volume, create the boot disk from the image and
    connect it, then for each entry of the block device mapping connect its
    volume and save its BDM, then the config drive when the instance
    requires one, and powering on as the last task. Every entry of the
    mapping carries its connection data. *)
Theorem spawn_flow_order (self : PowerVMDriver) (w : World)
        (instance : Instance) (network_info : list Network.VIF)
        (block_device_info : option BlockDeviceInfo) (flavor : option Flavor) :
  let fl := default (Flavor_get_by_id (instance_type_id instance)) flavor in
  let bdms := default [] (_extract_bdm block_device_info) in
  let flow :=
    [tf_vm_Create fl; tf_net_PlugVifs network_info; tf_net_PlugMgmtVif]
      ++ (if _is_booted_from_volume block_device_info then []
          else [tf_stg_CreateDiskForImg (root_gb fl); tf_stg_ConnectDisk])
      ++ flat_map (volume_tasks self) bdms
      ++ (if configdrive_required_by instance
          then [tf_stg_CreateAndConnectCfgDrive] else [])
      ++ [tf_vm_PowerOn] in
  Forall (fun bdm => is_Some (connection_info bdm)) bdms ->
  spawn_flow self instance network_info block_device_info flavor = Ok flow
  /\ last flow = Some tf_vm_PowerOn
  /\ spawn self w instance network_info block_device_info flavor
     = engine_run flow w.
Proof.
  intros fl bdms flow Hall.
  assert (Hflow : spawn_flow self instance network_info block_device_info
                             flavor = Ok flow).
  { unfold spawn_flow, flow, flow_add. subst fl bdms.
    destruct flavor as [f|]; simpl;
      destruct (_extract_bdm block_device_info) as [l|]; simpl in *;
      try rewrite (spawn_volumes_spec _ _ _ Hall); simpl;
      destruct (_is_booted_from_volume block_device_info); simpl;
      destruct (configdrive_required_by instance); simpl;
      by rewrite <- ?app_assoc. }
  split; [done|]. split.
  - unfold flow. by rewrite !app_assoc, last_snoc.
  - unfold spawn. by rewrite Hflow.
Qed.

(** *** destroy *)

(** C7: [destroy] returns normally when the instance is not found: when
    the body of its [try] raises [InstanceNotFound], and when it raises an
    [HttpError] whose response has status 404 and the request path of a
    LogicalPartition resource. Any other [HttpError] of the body reaches the
    caller unchanged. *)
Theorem destroy_instance_not_found (self : PowerVMDriver) (w : World)
        (instance : Instance) (block_device_info : option BlockDeviceInfo)
        (destroy_disks : bool) :
  let body := destroy_body self w instance block_device_info destroy_disks in
  let r := destroy self w instance block_device_info destroy_disks in
  (body.2 = Raise InstanceNotFound -> r.2 = Ok tt)
  /\ (forall resp,
        body.2 = Raise (HttpError resp) ->
        status resp = 404%Z /\ lpar_path (reqpath resp) -> r.2 = Ok tt)
  /\ (forall resp,
        task_state instance <> Some RESIZE_REVERTING ->
        body.2 = Raise (HttpError resp) ->
        ~ (status resp = 404%Z /\ lpar_path (reqpath resp)) ->
        r = (body.1, Raise (HttpError resp))).
Proof.
  simpl. unfold destroy.
  destruct (destroy_body self w instance block_device_info destroy_disks)
    as [w' r] eqn:Hbody. simpl.
  split; [|split].
  - intros ->. by case_bool_decide.
  - intros resp -> [Hst Hp]. case_bool_decide; [done|]. simpl.
    apply re_search_exp in Hp. rewrite Hst, Hp. done.
  - intros resp Hts -> Hno. rewrite bool_decide_eq_false_2 by done. simpl.
    destruct ((status resp =? 404)%Z && re_search exp (reqpath resp))
      eqn:Hc; [|done].
    apply andb_true_iff in Hc as [Hst Hp]. exfalso. apply Hno.
    split; [by apply Z.eqb_eq | by apply re_search_exp].
Qed.

(** During a resize revert nothing runs at all. *)
Lemma destroy_resize_reverting (self : PowerVMDriver) (w : World)
      (instance : Instance) (block_device_info : option BlockDeviceInfo)
      (destroy_disks : bool) :
  task_state instance = Some RESIZE_REVERTING ->
  destroy self w instance block_device_info destroy_disks = (w, Ok tt).
Proof. intros Hts. unfold destroy. by rewrite bool_decide_eq_true_2. Qed.

End Flows.

(** *** More on destroy and spawn *)

(** The task that [destroy] adds for a volume of the mapping. *)
Definition disconnect_tasks (self : PowerVMDriver) (pvm_inst_uuid : string)
           (bdm : BDM) : list Task :=
  match connection_info bdm with
  | Some conn_info =>
      [tf_stg_DisconnectVolume (vol_drv_for self conn_info) conn_info
                               pvm_inst_uuid]
  | None => []
  end.

Lemma destroy_volumes_spec (self : PowerVMDriver) (u : string)
      (bdms : list BDM) (flow : list Task) :
  Forall (fun bdm => is_Some (connection_info bdm)) bdms ->
  destroy_volumes self u bdms flow
  = Ok (flow ++ flat_map (disconnect_tasks self u) bdms).
Proof.
  intros Hall. revert flow.
  induction Hall as [|bdm l [ci Hci] _ IH]; intros flow; simpl.
  - by rewrite app_nil_r.
  - unfold disconnect_tasks at 1. rewrite Hci, IH. unfold flow_add.
    by rewrite <- !app_assoc.
Qed.

Lemma destroy_volumes_no_conn_info (self : PowerVMDriver) (u : string)
      (bdms : list BDM) (flow : list Task) :
  Exists (fun bdm => connection_info bdm = None) bdms ->
  destroy_volumes self u bdms flow = Raise AttributeError.
Proof.
  intros Hex. revert flow.
  induction Hex as [bdm l Hnone|bdm l _ IH]; intros flow; simpl.
  - by rewrite Hnone.
  - by destruct (connection_info bdm).
Qed.

Lemma chars_app (a b : string) : chars (a +:+ b) = chars a ++ chars b.
Proof.
  unfold chars. induction a as [|c a IH]; [done|].
  change (String c a +:+ b) with (String c (a +:+ b)). simpl. by rewrite IH.
Qed.

(** The pattern of [destroy] is not anchored. *)
Lemma lpar_path_extend (pre p post : string) :
  lpar_path p -> lpar_path (pre +:+ p +:+ post).
Proof.
  intros (pre0 & a & b & c & d & e & post0 & Hp & Hn).
  exists (chars pre ++ pre0), a, b, c, d, e, (post0 ++ chars post).
  split; [|done]. rewrite !chars_app, Hp. by rewrite <- !app_assoc.
Qed.

(** A path that the pattern matches holds [/LogicalPartition/]. *)
Lemma lpar_path_holds_segment (p : string) :
  lpar_path p -> re_search "/LogicalPartition/" p = true.
Proof.
  intros (pre & a & b & c & d & e & post & Hp & _).
  unfold re_search. fold (chars "/LogicalPartition/") (chars p).
  apply search_spec.
  exists (pre ++ chars "/ManagedSystem/" ++ a), (chars "/LogicalPartition/"),
    (b ++ chars "-" ++ c ++ chars "-" ++ d ++ chars "-" ++ e ++ chars "-"
       ++ post).
  split; [rewrite Hp; by rewrite <- !app_assoc|].
  change (compile (chars "/LogicalPartition/"))
    with (lits (chars "/LogicalPartition/") Eps).
  apply matches_lits. exists []. split; [by rewrite app_nil_r | constructor].
Qed.

Section MoreFlows.
Context `{Nova} `{Engine World}.

(** X5: the flow of [destroy] is, in this order: power off the LPAR,
    delete its virtual optical device, disconnect each volume of the block
    device mapping, then, unless the instance boots from a volume, detach
    its disks and (only if [destroy_disks]) delete them, and delete the
    LPAR as the last task. Every entry of the mapping carries its connection
    data. *)
Theorem destroy_flow_order (self : PowerVMDriver) (pvm_inst_uuid : string)
        (block_device_info : option BlockDeviceInfo) (destroy_disks : bool) :
  let bdms := default [] (_extract_bdm block_device_info) in
  let flow :=
    [tf_vm_PowerOff pvm_inst_uuid; tf_stg_DeleteVOpt pvm_inst_uuid]
      ++ flat_map (disconnect_tasks self pvm_inst_uuid) bdms
      ++ (if _is_booted_from_volume block_device_info then []
          else tf_stg_DetachDisk pvm_inst_uuid
               :: (if destroy_disks then [tf_stg_DeleteDisk] else []))
      ++ [tf_vm_Delete pvm_inst_uuid] in
  Forall (fun bdm => is_Some (connection_info bdm)) bdms ->
  destroy_flow self pvm_inst_uuid block_device_info destroy_disks = Ok flow
  /\ last flow = Some (tf_vm_Delete pvm_inst_uuid)
  /\ (tf_stg_DeleteDisk ∈ flow <->
      destroy_disks = true
      /\ _is_booted_from_volume block_device_info = false).
Proof.
  intros bdms flow Hall. split; [|split].
  - unfold destroy_flow, flow, flow_add. subst bdms.
    destruct (_extract_bdm block_device_info) as [l|]; simpl in *;
      try rewrite (destroy_volumes_spec _ _ _ _ Hall); simpl;
      destruct (_is_booted_from_volume block_device_info); simpl;
      destruct destroy_disks; simpl;
      by rewrite <- ?app_assoc.
  - unfold flow. by rewrite !app_assoc, last_snoc.
  - assert (Hvol : tf_stg_DeleteDisk
                   ∉ flat_map (disconnect_tasks self pvm_inst_uuid) bdms).
    { intros Hin. apply list_elem_of_In, in_flat_map in Hin as (b & _ & Hb).
      unfold disconnect_tasks in Hb.
      destruct (connection_info b); simpl in Hb; [|done].
      by destruct Hb as [?|[]]. }
    unfold flow. rewrite !elem_of_app. split.
    + intros [Hin|[Hin|[Hin|Hin]]].
      * apply elem_of_cons in Hin as [?|Hin]; [discriminate|].
        apply elem_of_cons in Hin as [?|Hin]; [discriminate|].
        by apply elem_of_nil in Hin.
      * done.
      * destruct (_is_booted_from_volume block_device_info);
          [by apply elem_of_nil in Hin|].
        apply elem_of_cons in Hin as [?|Hin]; [discriminate|].
        destruct destroy_disks; [done|]. by apply elem_of_nil in Hin.
      * apply elem_of_cons in Hin as [?|Hin]; [discriminate|].
        by apply elem_of_nil in Hin.
    + intros [-> ->]. right. right. left. right. left.
Qed.

(** X6: whatever [destroy] raises is what the body of its [try] raised,
    the hypervisor being as that body left it; it is never
    [InstanceNotFound], and never an [HttpError] with status 404 on the
    path of a LogicalPartition resource. *)
Theorem destroy_raises_only_body_errors (self : PowerVMDriver) (w : World)
        (instance : Instance) (block_device_info : option BlockDeviceInfo)
        (destroy_disks : bool) (e : exn) :
  let body := destroy_body self w instance block_device_info destroy_disks in
  let r := destroy self w instance block_device_info destroy_disks in
  r.2 = Raise e ->
  task_state instance <> Some RESIZE_REVERTING
  /\ body.2 = Raise e /\ r.1 = body.1
  /\ e <> InstanceNotFound
  /\ (forall resp, e = HttpError resp ->
        ~ (status resp = 404%Z /\ lpar_path (reqpath resp))).
Proof.
  simpl. unfold destroy. case_bool_decide as Hts; [discriminate|].
  destruct (destroy_body self w instance block_device_info destroy_disks)
    as [w' r] eqn:Hbody. simpl.
  destruct r as [[]|e0]; simpl; [discriminate|]. intros He.
  split; [done|].
  destruct e0; simpl in He; try (injection He as <-; repeat split; done).
  - discriminate.
  - destruct ((status resp =? 404)%Z && re_search exp (reqpath resp))
      eqn:Hc; [discriminate|].
    injection He as <-. repeat split; try done.
    intros resp0 [= <-] [Hst Hp]. apply re_search_exp in Hp.
    rewrite Hst, Hp in Hc. discriminate.
Qed.

(** X7: a block device mapping with an entry without connection data stops
    both [spawn] and [destroy] with [AttributeError] while they define their
    flow: no task runs, and [destroy] deletes nothing. *)
Theorem missing_connection_info_stops_flows (self : PowerVMDriver) (w : World)
        (instance : Instance) (network_info : list Network.VIF)
        (block_device_info : option BlockDeviceInfo) (flavor : option Flavor)
        (destroy_disks : bool) (pvm_inst_uuid : string) :
  Exists (fun bdm => connection_info bdm = None)
         (default [] (_extract_bdm block_device_info)) ->
  spawn self w instance network_info block_device_info flavor
  = (w, Raise AttributeError)
  /\ (task_state instance <> Some RESIZE_REVERTING ->
      get_pvm_uuid instance = Ok pvm_inst_uuid ->
      destroy self w instance block_device_info destroy_disks
      = (w, Raise AttributeError)).
Proof.
  intros Hex. split.
  - unfold spawn, spawn_flow.
    destruct (_extract_bdm block_device_info) as [l|]; simpl in *;
      [|by apply Exists_nil in Hex].
    by rewrite (spawn_volumes_no_conn_info _ _ _ Hex).
  - intros Hts Hu. unfold destroy, destroy_body, destroy_flow.
    rewrite bool_decide_eq_false_2 by done. rewrite Hu.
    destruct (_extract_bdm block_device_info) as [l|]; simpl in *;
      [|by apply Exists_nil in Hex].
    by rewrite (destroy_volumes_no_conn_info _ _ _ _ Hex).
Qed.

End MoreFlows.

(** X8: the pattern of [destroy] is not anchored: when a 404 on a request
    path is taken for a missing partition, so is a 404 on any path that
    holds that one, such as the path of a resource below the partition. *)
Theorem destroy_handler_404_extends (pre p post : string) :
  destroy_handler (HttpError (mkResponse 404 p)) = Ok tt ->
  destroy_handler (HttpError (mkResponse 404 (pre +:+ p +:+ post))) = Ok tt.
Proof.
  unfold destroy_handler. simpl. intros Hp.
  destruct (re_search exp p) eqn:E; [|discriminate].
  apply re_search_exp, (lpar_path_extend pre p post), re_search_exp in E.
  by rewrite E.
Qed.

(** X9: an [HttpError] on a request path that does not hold
    [/LogicalPartition/] is always raised again, whatever its status. *)
Theorem destroy_handler_other_resource (st : Z) (p : string) :
  re_search "/LogicalPartition/" p = false ->
  destroy_handler (HttpError (mkResponse st p))
  = Raise (HttpError (mkResponse st p)).
Proof.
  unfold destroy_handler. simpl. intros Hno.
  destruct (re_search exp p) eqn:E; [|by rewrite andb_false_r].
  apply re_search_exp, lpar_path_holds_segment in E. congruence.
Qed.

(** *** The volume drivers *)

Lemma _inst_dict_lookup `{ImportUtils} (input_dict : gmap string string)
      (key : string) :
  _inst_dict input_dict !! key = import_class_inst <$> input_dict !! key.
Proof.
  unfold _inst_dict. revert key.
  apply (map_fold_weak_ind
           (fun (r m : gmap string string) =>
              forall key, r !! key = import_class_inst <$> m !! key)).
  - intros key. by rewrite !lookup_empty.
  - intros i x m r Hi IH key. rewrite !lookup_insert.
    case_decide; [done | apply IH].
Qed.

(** X10: [_inst_dict] gives a dictionary with the keys of its input, each
    mapped to the instance of the class that the input names for it, in
    whatever order the loop visits the keys. *)
Theorem _inst_dict_spec `{ImportUtils} (input_dict : gmap string string) :
  _inst_dict input_dict = import_class_inst <$> input_dict
  /\ dom (_inst_dict input_dict) = dom input_dict.
Proof.
  assert (Heq : _inst_dict input_dict = import_class_inst <$> input_dict).
  { apply map_eq. intros key. by rewrite _inst_dict_lookup, lookup_fmap. }
  split; [done|]. rewrite Heq. apply dom_fmap_L.
Qed.

(** X11: with the volume drivers that [init_host] sets up, only a volume of
    type [fibre_channel] gets a driver; [spawn] and [destroy] hand [None]
    as the driver to the task of a volume of any other type, or of none. *)
Theorem vol_drv_only_fibre_channel `{ImportUtils} (fc_strategy : string)
        (conn_info : ConnInfo) :
  vol_drv_for (mkDriver (_inst_dict (VOLUME_DRIVER_MAPPINGS fc_strategy)))
              conn_info
  = if bool_decide (driver_volume_type conn_info = Some "fibre_channel")
    then Some (import_class_inst fc_strategy) else None.
Proof.
  unfold vol_drv_for, VOLUME_DRIVER_MAPPINGS. simpl.
  destruct (driver_volume_type conn_info) as [t|]; [|done].
  rewrite _inst_dict_lookup.
  destruct (decide (t = "fibre_channel")) as [->|Hne].
  - by rewrite lookup_singleton_eq, bool_decide_eq_true_2.
  - rewrite lookup_singleton_ne by done.
    rewrite bool_decide_eq_false_2; [done | congruence].
Qed.

(** *** init_host *)

Section InitHost.
Context `{HostRest World} `{!Mgmt.LPARSearch World} `{ImportUtils}.

(** X12: [init_host] succeeds only on a host with exactly one managed
    system and exactly one management partition, and with [localdisk] or
    [ssp] as the configured disk driver; the driver then holds the UUID of
    that system and of that partition, and a volume driver for
    [fibre_channel] and for nothing else. *)
Theorem init_host_requirements (w : World) (disk_driver fc_strategy : string)
        (st : DriverState) :
  init_host w disk_driver fc_strategy = Returns st ->
  exists sys mp,
    read_System_feed w = [sys]
    /\ Mgmt.search_mgmt_partition w = [mp]
    /\ (disk_driver = "localdisk" \/ disk_driver = "ssp")
    /\ host_wrapper st = sys /\ host_uuid st = sys_uuid sys
    /\ mp_uuid st = Mgmt.lpar_uuid mp
    /\ (forall key, is_Some (vol_drvs (driver_vol_drvs st) !! key)
                    <-> key = "fibre_channel").
Proof.
  unfold init_host, _get_host_uuid, Mgmt.get_mgmt_partition, _get_disk_adapter.
  destruct (read_System_feed w) as [|sys [|sys' syss]]; simpl; try done.
  destruct (Mgmt.search_mgmt_partition w) as [|mp [|mp' mps]]; simpl;
    try done.
  destruct (DISK_ADPT_MAPPINGS !! disk_driver) as [cls|] eqn:Hcls; [|done].
  destruct (import_object_ns w _ cls _ _) as [dvr|]; simpl; [|done].
  destruct (HostCPUStats w _) as [stats|]; [|done].
  intros [= <-]. exists sys, mp. simpl. repeat split; try done.
  - unfold DISK_ADPT_MAPPINGS in Hcls.
    destruct (decide (disk_driver = "localdisk")) as [|Hn1]; [by left|].
    destruct (decide (disk_driver = "ssp")) as [|Hn2]; [by right|].
    rewrite lookup_insert_ne, lookup_insert_ne, lookup_empty in Hcls by done.
    discriminate.
  - rewrite _inst_dict_lookup. unfold VOLUME_DRIVER_MAPPINGS.
    intros [x Hx]. destruct (decide (key = "fibre_channel")); [done|].
    by rewrite lookup_singleton_ne in Hx.
  - intros ->. rewrite _inst_dict_lookup. unfold VOLUME_DRIVER_MAPPINGS.
    rewrite lookup_singleton_eq. by eexists.
Qed.

End InitHost.

(** *** Resize and migration *)

Section Migrate.
Context `{FlavorDb} `{Network.PartitionStates} {World : Type}
        `{!VmOps World}.

(** X13: [migrate_disk_and_power_off] refuses a flavor with a smaller root
    disk than the instance has, whatever the destination: it raises
    [InstanceFaultRollback] around a [ResizeError] and has called nothing on
    the hypervisor. *)
Theorem migrate_rejects_shrink (w : World) (instance : Instance)
        (instance_root_gb : Z) (dest : string) (flavor : FlavorArg)
        (f : Flavor) :
  resolve_flavor flavor = Returns (Some f) ->
  (root_gb f < instance_root_gb)%Z ->
  migrate_disk_and_power_off w instance instance_root_gb dest flavor
  = (w, [],
     Raises (InstanceFaultRollback (ResizeError "Cannot reduce disk size."))).
Proof.
  intros Hf Hlt. unfold migrate_disk_and_power_off. rewrite Hf.
  by rewrite (proj2 (Z.ltb_lt _ _) Hlt).
Qed.

(** X14: a destination other than this host is never served:
    [migrate_disk_and_power_off] raises and has called nothing on the
    hypervisor. What it raises is [NotImplementedError], unless the flavor
    was refused before the destination is looked at: a dictionary without
    [id] ([KeyError]), what the lookup of the flavor by its id raised, or
    a root disk that would shrink. *)
Theorem migrate_to_other_host (w : World) (instance : Instance)
        (instance_root_gb : Z) (dest : string) (flavor : FlavorArg) :
  dest <> my_ip ->
  let r := migrate_disk_and_power_off w instance instance_root_gb dest flavor in
  r.1 = (w, [])
  /\ (r.2 = Raises NotImplementedError
      \/ r.2 = Raises (KeyError "id")
      \/ (exists d id e,
            flavor = FlavorDict d /\ d !! "id" = Some id
            /\ flavor_obj_Flavor_get_by_id id = Raises e /\ r.2 = Raises e)
      \/ r.2 = Raises (InstanceFaultRollback
                         (ResizeError "Cannot reduce disk size.")))
  /\ (r.2 = Raises NotImplementedError <->
      match resolve_flavor flavor with
      | Returns (Some f) => (instance_root_gb <= root_gb f)%Z
      | Returns None => True
      | Raises e => e = NotImplementedError
      end).
Proof.
  intros Hd. simpl. unfold migrate_disk_and_power_off.
  destruct (resolve_flavor flavor) as [[f|]|e] eqn:Hf.
  - destruct (Z.ltb_spec (root_gb f) instance_root_gb) as [Hlt|Hge].
    + split; [done|]. split; [by do 3 right|].
      split; [discriminate|lia].
    + rewrite bool_decide_eq_false_2 by done.
      split; [done|]. split; [by left|]. by split.
  - rewrite bool_decide_eq_false_2 by done.
    split; [done|]. split; [by left|]. by split.
  - simpl. split; [done|]. split; [|split; congruence].
    destruct flavor as [|d|f]; simpl in Hf; try discriminate.
    case_bool_decide; [discriminate|].
    destruct (d !! "id") as [id|] eqn:Hid.
    + destruct (flavor_obj_Flavor_get_by_id id) as [f|e'] eqn:Hget;
        [discriminate|]. injection Hf as <-.
      right. right. left. by exists d, id, e'.
    + injection Hf as <-. right. by left.
Qed.

(** X15: when [migrate_disk_and_power_off] returns, the destination was
    this host, the flavor's root disk is not smaller than the instance's,
    and the calls made are: a power off and an extension of the root disk
    to the flavor's size exactly when the flavor's disk is larger, then the
    resize of the VM; the disk information returned is empty. *)
Theorem migrate_returns_only_after_resize (w : World) (instance : Instance)
        (instance_root_gb : Z) (dest : string) (flavor : FlavorArg)
        (disk_info : gmap string string) :
  let r := migrate_disk_and_power_off w instance instance_root_gb dest flavor in
  r.2 = Returns disk_info ->
  disk_info = ∅ /\ dest = my_ip
  /\ exists f,
      resolve_flavor flavor = Returns (Some f)
      /\ (instance_root_gb <= root_gb f)%Z
      /\ r.1.2
         = (if bool_decide (instance_root_gb < root_gb f)%Z
            then [CallPowerOff; CallExtendDisk (root_gb f)] else [])
             ++ [CallResizeVm f].
Proof.
  simpl. unfold migrate_disk_and_power_off.
  destruct (resolve_flavor flavor) as [[f|]|e] eqn:Hf; [| |done].
  - destruct (Z.ltb_spec (root_gb f) instance_root_gb) as [Hlt|Hge];
      [done|].
    case_bool_decide as Hd; [|done].
    destruct (Z.gtb_spec (root_gb f) instance_root_gb) as [Hgt|Hle].
    + destruct (vm_power_off w instance None) as [w1 [b|e]]; [|done].
      destruct (extend_disk w1 instance (root_gb f)) as [w2 [[]|e]]; [|done].
      destruct (_resize_vm w2 instance f) as [w3 [[]|e]]; [|done].
      intros [= <-]. split; [done|]. split; [done|]. exists f.
      rewrite bool_decide_eq_true_2 by lia. done.
    + destruct (_resize_vm w instance f) as [w3 [[]|e]]; [|done].
      intros [= <-]. split; [done|]. split; [done|]. exists f.
      rewrite bool_decide_eq_false_2 by lia. done.
  - simpl. by case_bool_decide.
Qed.

(** X16: without a flavor ([None] or an empty dictionary)
    [migrate_disk_and_power_off] never returns and calls nothing on the
    hypervisor: on this host it fails with [AttributeError] where it reads
    the flavor's root disk size. *)
Theorem migrate_without_flavor (w : World) (instance : Instance)
        (instance_root_gb : Z) (dest : string) (flavor : FlavorArg) :
  flavor = FlavorNone \/ flavor = FlavorDict ∅ ->
  migrate_disk_and_power_off w instance instance_root_gb dest flavor
  = (w, [],
     if bool_decide (dest = my_ip) then Raises (Exn AttributeError)
     else Raises NotImplementedError).
Proof.
  intros [->| ->]; unfold migrate_disk_and_power_off, resolve_flavor;
    rewrite ?bool_decide_eq_true_2 by done; simpl; by case_bool_decide.
Qed.

(** *** plug_vifs *)

Context `{!Network.VmModule World, !Network.VirtApi World}.
Context `{!NetworkRest.RestFaults World}.

Definition not_found_msg (instance : Instance) : string :=
  "Plug vif failed because instance " +:+ name instance +:+ " was not found.".

Definition unexpected_msg : string :=
  "Plug vif failed because of an unexpected error.".

(** What [engine.run()] raises is what the lookup of the LPAR raised, or
    what the task raised on the LPAR found. *)
Lemma plug_vifs_run_raises (w : World) (instance : Instance)
      (network_info : list Network.VIF) (e : exn) :
  (plug_vifs_run w instance network_info).2 = Raise e <->
  get_instance_wrapper w instance = Raise e
  \/ (exists lpar_wrap,
        get_instance_wrapper w instance = Ok lpar_wrap
        /\ Network.plug_result
             (NetworkRest.execute network_info w lpar_wrap) = Raise e).
Proof.
  unfold plug_vifs_run.
  destruct (get_instance_wrapper w instance) as [lpar_wrap|e0]; simpl.
  - split.
    + intros He. right. by exists lpar_wrap.
    + intros [Hg|(lw & [= <-] & He)]; [discriminate|done].
  - split.
    + intros [= ->]. by left.
    + intros [[= ->]|(lw & Hg & _)]; [done|discriminate].
Qed.

(** X17: the only exception that [plug_vifs] lets out is
    [VirtualInterfacePlugException]. Its message says that the instance was
    not found exactly when [engine.run()] raised [InstanceNotFound], be it
    from looking up the LPAR or from a call into the hypervisor inside the
    task; for anything else that was raised the message is that of an
    unexpected error. An LPAR in a state that does not allow plugging gives
    the latter, with nothing created. *)
Theorem plug_vifs_translates_errors (w : World) (instance : Instance)
        (network_info : list Network.VIF) :
  let r := plug_vifs w instance network_info in
  let run := plug_vifs_run w instance network_info in
  (forall e, r.2 = Raises e -> exists msg, e = VirtualInterfacePlugException msg)
  /\ (r.2 = Returns tt <-> raises run.2 = false)
  /\ (r.2 = Raises (VirtualInterfacePlugException (not_found_msg instance))
      <-> get_instance_wrapper w instance = Raise InstanceNotFound
          \/ (exists lpar_wrap,
                get_instance_wrapper w instance = Ok lpar_wrap
                /\ Network.plug_result
                     (NetworkRest.execute network_info w lpar_wrap)
                   = Raise InstanceNotFound))
  /\ (forall e, run.2 = Raise e -> e <> InstanceNotFound ->
        r.2 = Raises (VirtualInterfacePlugException unexpected_msg))
  /\ (forall lpar_wrap,
        get_instance_wrapper w instance = Ok lpar_wrap ->
        Network.state_ok_for_plug lpar_wrap = false ->
        r = (w, Raises (VirtualInterfacePlugException unexpected_msg))).
Proof.
  simpl. unfold plug_vifs.
  pose proof (plug_vifs_run_raises w instance network_info InstanceNotFound)
    as Hrun.
  destruct (plug_vifs_run w instance network_info) as [w' r] eqn:Hr.
  simpl in Hrun. split; [|split; [|split; [|split]]].
  - destruct r as [l|e0]; simpl; [discriminate|].
    destruct e0; simpl; intros e [= <-]; eauto.
  - destruct r as [l|e0]; simpl; [done|].
    destruct e0; simpl; split; discriminate.
  - rewrite <- Hrun. destruct r as [l|e0]; simpl.
    + split; discriminate.
    + destruct e0; simpl; split; try done; try discriminate.
  - intros e. destruct r as [l|e0]; simpl; [discriminate|].
    intros [= ->] Hne. by destruct e.
  - intros lpar_wrap Hg Hok. unfold plug_vifs_run in Hr. rewrite Hg in Hr.
    unfold NetworkRest.execute in Hr. rewrite Hok in Hr. simpl in Hr.
    by injection Hr as <- <-.
Qed.

End Migrate.

(** *** A stand-in nova and engine for the examples *)

Definition demo_nova : Nova :=
  {| block_device_info_get_mapping := fun bdi =>
       match bdi with
       | Some d => default [] (default None (block_device_mapping d))
       | None => []
       end;
     get_root_bdm :=
       List.find (fun bdm => (boot_index bdm =? 0)%Z);
     configdrive_required_by := fun _ => true;
     Flavor_get_by_id := fun _ => mkFlavor 20;
     RESIZE_REVERTING := "resize_reverting" |}.

(** The engine logs the tasks it ran; deleting the partition fails with
    what [fail_with] says. *)
Definition demo_engine (fail_with : option exn) : Engine (list Task) :=
  {| engine_run := fun flow w =>
       match fail_with with
       | Some e => (w, Raise e)
       | None => (w ++ flow, Ok tt)
       end;
     get_pvm_uuid := fun i => Ok (uuid i) |}.

Definition demo_driver : PowerVMDriver :=
  mkDriver {[ "fibre_channel" := "vol_attach.VscsiVolumeAdapter" ]}.

Definition demo_instance : Instance :=
  mkInstance "instance-00000001" "49629a5c-f4c4-4721-9511-9725786ff2e5" 3 None.

Definition demo_conn_info : ConnInfo :=
  mkConnInfo (Some "fibre_channel") "e11765ea-dd14-4aa9-a953-4fd6b4999635".

Definition demo_bdm : BDM := mkBDM (Some demo_conn_info) 1 "/dev/sdb".

Definition demo_bdi : option BlockDeviceInfo :=
  Some (mkBlockDeviceInfo (Some (Some [demo_bdm]))).

Example demo_spawn_flow :
  @spawn_flow demo_nova demo_driver demo_instance [] demo_bdi None
  = Ok [tf_vm_Create (mkFlavor 20); tf_net_PlugVifs []; tf_net_PlugMgmtVif;
        tf_stg_CreateDiskForImg 20; tf_stg_ConnectDisk;
        tf_stg_ConnectVolume (Some "vol_attach.VscsiVolumeAdapter")
                             demo_conn_info;
        tf_stg_SaveBDM demo_bdm;
        tf_stg_CreateAndConnectCfgDrive; tf_vm_PowerOn].
Proof. vm_compute. reflexivity. Qed.

Lemma spawn_flow_order_witness :
  @spawn_flow demo_nova demo_driver demo_instance [] demo_bdi None
  = Ok ([tf_vm_Create (mkFlavor 20); tf_net_PlugVifs []; tf_net_PlugMgmtVif]
          ++ [tf_stg_CreateDiskForImg 20; tf_stg_ConnectDisk]
          ++ flat_map (volume_tasks demo_driver) [demo_bdm]
          ++ [tf_stg_CreateAndConnectCfgDrive]
          ++ [tf_vm_PowerOn]).
Proof.
  refine (proj1 (@spawn_flow_order demo_nova _ (demo_engine None) demo_driver
                   [] demo_instance [] demo_bdi None _)).
  repeat constructor. by eexists.
Defined.

Definition not_found_path : string :=
  "/rest/api/uom/ManagedSystem/67dca605-3923-34da-bd8f-26a378fc817f"
    +:+ "/LogicalPartition/49629A5C-F4C4-4721-9511-9725786FF2E5".

Example demo_destroy_lpar_gone :
  @destroy demo_nova _
           (demo_engine (Some (HttpError (mkResponse 404 not_found_path))))
           demo_driver [] demo_instance demo_bdi true
  = ([], Ok tt).
Proof. vm_compute. reflexivity. Qed.

Example demo_destroy_server_error :
  @destroy demo_nova _
           (demo_engine (Some (HttpError (mkResponse 500 not_found_path))))
           demo_driver [] demo_instance demo_bdi true
  = ([], Raise (HttpError (mkResponse 500 not_found_path))).
Proof. vm_compute. reflexivity. Qed.

Example demo_destroy_flow :
  @destroy demo_nova _ (demo_engine None) demo_driver [] demo_instance
           demo_bdi true
  = ([tf_vm_PowerOff "49629a5c-f4c4-4721-9511-9725786ff2e5";
      tf_stg_DeleteVOpt "49629a5c-f4c4-4721-9511-9725786ff2e5";
      tf_stg_DisconnectVolume (Some "vol_attach.VscsiVolumeAdapter")
                              demo_conn_info
                              "49629a5c-f4c4-4721-9511-9725786ff2e5";
      tf_stg_DetachDisk "49629a5c-f4c4-4721-9511-9725786ff2e5";
      tf_stg_DeleteDisk;
      tf_vm_Delete "49629a5c-f4c4-4721-9511-9725786ff2e5"], Ok tt).
Proof. vm_compute. reflexivity. Qed.

Lemma destroy_instance_not_found_witness :
  (@destroy demo_nova _
            (demo_engine (Some (HttpError (mkResponse 404 not_found_path))))
            demo_driver [] demo_instance demo_bdi true).2
  = Ok tt.
Proof.
  refine (proj1 (proj2 (@destroy_instance_not_found demo_nova _
                          (demo_engine
                             (Some (HttpError (mkResponse 404 not_found_path))))
                          demo_driver [] demo_instance demo_bdi true))
                (mkResponse 404 not_found_path) eq_refl (conj eq_refl _)).
  apply re_search_exp. vm_compute. reflexivity.
Defined.

Lemma destroy_flow_order_witness :
  @destroy_flow demo_nova demo_driver "49629a5c" demo_bdi true
  = Ok ([tf_vm_PowerOff "49629a5c"; tf_stg_DeleteVOpt "49629a5c"]
          ++ flat_map (disconnect_tasks demo_driver "49629a5c") [demo_bdm]
          ++ [tf_stg_DetachDisk "49629a5c"; tf_stg_DeleteDisk]
          ++ [tf_vm_Delete "49629a5c"]).
Proof.
  refine (proj1 (@destroy_flow_order demo_nova demo_driver "49629a5c"
                   demo_bdi true _)).
  repeat constructor. by eexists.
Defined.

Lemma destroy_raises_only_body_errors_witness :
  (@destroy_body demo_nova _
     (demo_engine (Some (HttpError (mkResponse 500 not_found_path))))
     demo_driver [] demo_instance demo_bdi true).2
  = Raise (HttpError (mkResponse 500 not_found_path)).
Proof.
  refine (proj1 (proj2 (@destroy_raises_only_body_errors demo_nova _
            (demo_engine (Some (HttpError (mkResponse 500 not_found_path))))
            demo_driver [] demo_instance demo_bdi true
            (HttpError (mkResponse 500 not_found_path)) _))).
  vm_compute. reflexivity.
Defined.

Definition demo_bad_bdi : option BlockDeviceInfo :=
  Some (mkBlockDeviceInfo (Some (Some [demo_bdm; mkBDM None 2 "/dev/sdc"]))).

Lemma missing_connection_info_stops_flows_witness :
  @spawn demo_nova _ (demo_engine None) demo_driver [] demo_instance []
         demo_bad_bdi None
  = ([], Raise AttributeError).
Proof.
  refine (proj1 (@missing_connection_info_stops_flows demo_nova _
                   (demo_engine None) demo_driver [] demo_instance []
                   demo_bad_bdi None true "49629a5c" _)).
  apply Exists_cons_tl, Exists_cons_hd. reflexivity.
Defined.

Lemma destroy_handler_404_extends_witness :
  destroy_handler
    (HttpError
       (mkResponse 404
          ("https://pvm:12443" +:+ not_found_path
             +:+ "/ClientNetworkAdapter/6445b54b-b9dc-3bc2-b1d3-f8cc22ba95b8")))
  = Ok tt.
Proof.
  apply (destroy_handler_404_extends "https://pvm:12443" not_found_path).
  vm_compute. reflexivity.
Defined.

Lemma destroy_handler_other_resource_witness :
  destroy_handler
    (HttpError
       (mkResponse 404 "/rest/api/uom/ManagedSystem/67dc/VirtualIOServer/10B0-6F4B-437D-9C18-CA95"))
  = Raise
      (HttpError
         (mkResponse 404 "/rest/api/uom/ManagedSystem/67dc/VirtualIOServer/10B0-6F4B-437D-9C18-CA95")).
Proof.
  apply destroy_handler_other_resource. vm_compute. reflexivity.
Defined.

(** *** reboot *)

Section Reboot.
Context `{VmOps World} `{!Power World}.

(** X20: [reboot] makes at most one power call, on the partition it looked
    up: a power-on only when the partition is not activated, otherwise a
    power-off that restarts and is immediate exactly for the reboot type
    [HARD]. When it returns, it returns [True] and that one call was
    made; when the lookup fails, nothing is called. *)
Theorem reboot_one_power_call (w : World) (instance : Instance)
        (reboot_type : string) :
  let r := reboot w instance reboot_type in
  (length r.1.2 <= 1)%nat
  /\ (forall b, r.2 = Ok b -> b = true /\ length r.1.2 = 1%nat)
  /\ (forall e, get_instance_wrapper w instance = Raise e ->
                r = (w, [], Raise e))
  /\ (forall entry, CallPwrPowerOn entry ∈ r.1.2 ->
        get_instance_wrapper w instance = Ok entry
        /\ Network.state entry = Network.NOT_ACTIVATED)
  /\ (forall entry restart force_immediate,
        CallPwrPowerOff entry restart force_immediate ∈ r.1.2 ->
        get_instance_wrapper w instance = Ok entry
        /\ Network.state entry <> Network.NOT_ACTIVATED
        /\ restart = true
        /\ (force_immediate = true <-> reboot_type = "HARD")).
Proof.
  simpl. unfold reboot.
  destruct (get_instance_wrapper w instance) as [entry|e0]; simpl.
  - case_bool_decide as Hst; simpl.
    + destruct (pvm_pwr_power_off w entry true _) as [w1 [[]|e]]; simpl;
        (split; [lia|]); (split; [by intros b [= <-] || done|]);
        (split; [done|]); (split; [by intros e' [=]%list_elem_of_singleton|]);
        intros e' rs fi [= -> -> ->]%list_elem_of_singleton;
        repeat split; try done; by rewrite bool_decide_eq_true.
    + assert (Network.state entry = Network.NOT_ACTIVATED) as Hna.
      { destruct (Network.LPARState_eq_dec (Network.state entry)
                    Network.NOT_ACTIVATED); [done|]. by destruct Hst. }
      destruct (pvm_pwr_power_on w entry) as [w1 [[]|e]]; simpl;
        (split; [lia|]); (split; [by intros b [= <-] || done|]);
        (split; [done|]);
        (split; [by intros e' [= ->]%list_elem_of_singleton|]);
        by intros e' rs fi [=]%list_elem_of_singleton.
  - split; [lia|]. split; [done|]. split; [by intros e [= ->]|].
    split; [by intros e' ?%elem_of_nil | by intros e' rs fi ?%elem_of_nil].
Qed.

End Reboot.

(** *** Stand-ins for the rest of the driver *)

Definition demo_import : ImportUtils :=
  {| import_class_inst := fun cls => cls +:+ "()" |}.

Definition demo_host : HostRest unit :=
  {| read_System_feed := fun _ => [mkSystem "67dca605" "8247-22L*1234567"];
     import_object_ns := fun _ ns cls host mp =>
       Ok (ns +:+ "." +:+ cls +:+ "(" +:+ host +:+ "," +:+ mp +:+ ")");
     HostCPUStats := fun _ host => Ok ("HostCPUStats(" +:+ host +:+ ")") |}.

Definition demo_lpar_search : Mgmt.LPARSearch unit :=
  {| Mgmt.search_mgmt_partition := fun _ =>
       [Mgmt.mkMgmtLPAR "0A68CFAB" "nova-mgmt"] |}.

Definition demo_init_host : outcome DriverState :=
  @init_host _ demo_host demo_lpar_search demo_import tt "ssp"
             "vol_attach.VscsiVolumeAdapter".

Definition demo_state : DriverState :=
  mkDriverState
    (mkSystem "67dca605" "8247-22L*1234567") "67dca605" "0A68CFAB"
    "nova_powervm.virt.powervm.disk.ssp.SSPDiskAdapter(67dca605,0A68CFAB)"
    (mkDriver {[ "fibre_channel" := "vol_attach.VscsiVolumeAdapter()" ]})
    "HostCPUStats(67dca605)".

Example demo_init_host_ok : demo_init_host = Returns demo_state.
Proof. vm_compute. reflexivity. Qed.

Example demo_init_host_bad_disk_driver :
  @init_host _ demo_host demo_lpar_search demo_import tt "lvm"
             "vol_attach.VscsiVolumeAdapter"
  = Raises (KeyError "lvm").
Proof. vm_compute. reflexivity. Qed.

Lemma init_host_requirements_witness :
  exists sys mp,
    @read_System_feed _ demo_host tt = [sys]
    /\ @Mgmt.search_mgmt_partition _ demo_lpar_search tt = [mp]
    /\ ("ssp" = "localdisk" \/ "ssp" = "ssp")
    /\ host_wrapper demo_state = sys /\ host_uuid demo_state = sys_uuid sys
    /\ mp_uuid demo_state = Mgmt.lpar_uuid mp
    /\ (forall key, is_Some (vol_drvs (driver_vol_drvs demo_state) !! key)
                    <-> key = "fibre_channel").
Proof.
  apply (@init_host_requirements _ demo_host demo_lpar_search demo_import tt
           "ssp" "vol_attach.VscsiVolumeAdapter" demo_state).
  vm_compute. reflexivity.
Defined.

(** One flavor is known, under the id 7. *)
Definition demo_flavor_db : FlavorDb :=
  {| flavor_obj_Flavor_get_by_id := fun id =>
       if (id =? 7)%Z then Returns (mkFlavor 20)
       else Raises (FlavorNotFound id) |}.

(** The hypervisor is the log of what was done to it. *)
Definition demo_vmops : @VmOps (list string) NetworkSpec.demo_states :=
  {| get_instance_wrapper := fun _ i =>
       if bool_decide (name i = "instance-gone") then Raise InstanceNotFound
       else Ok (@Network.mkLPAR NetworkSpec.demo_states "running" "inactive");
     vm_power_off := fun w _ _ => (w ++ ["power_off"], Ok true);
     vm_update := fun w _ f _ => (w ++ ["update"], Ok tt);
     extend_disk := fun w _ size => (w ++ ["extend_disk"], Ok tt);
     retry := fun body w => body w;
     my_ip := "9.1.2.3" |}.

Definition demo_migrate (root_gb : Z) (dest : string) (flavor : FlavorArg)
  : list string * list MigrateCall * outcome (gmap string string) :=
  @migrate_disk_and_power_off demo_flavor_db _ _ demo_vmops [] demo_instance
                              root_gb dest flavor.

Example demo_migrate_grow :
  demo_migrate 10 "9.1.2.3" (FlavorObj (mkFlavor 40))
  = (["power_off"; "extend_disk"; "power_off"; "update"],
     [CallPowerOff; CallExtendDisk 40; CallResizeVm (mkFlavor 40)],
     Returns ∅).
Proof. vm_compute. reflexivity. Qed.

Example demo_migrate_dict_flavor :
  demo_migrate 20 "9.1.2.3" (FlavorDict {[ "id" := 7%Z ]})
  = (["power_off"; "update"], [CallResizeVm (mkFlavor 20)], Returns ∅).
Proof. vm_compute. reflexivity. Qed.

Example demo_migrate_unknown_flavor :
  demo_migrate 20 "9.9.9.9" (FlavorDict {[ "id" := 8%Z ]})
  = ([], [], Raises (FlavorNotFound 8)).
Proof. vm_compute. reflexivity. Qed.

Lemma migrate_rejects_shrink_witness :
  demo_migrate 20 "9.1.2.3" (FlavorObj (mkFlavor 10))
  = ([], [],
     Raises (InstanceFaultRollback (ResizeError "Cannot reduce disk size."))).
Proof.
  apply (@migrate_rejects_shrink demo_flavor_db _ _ demo_vmops [] demo_instance 20
           "9.1.2.3" (FlavorObj (mkFlavor 10)) (mkFlavor 10));
    [reflexivity | simpl; lia].
Defined.

Lemma migrate_to_other_host_witness :
  (demo_migrate 10 "9.9.9.9" (FlavorObj (mkFlavor 40))).1 = ([], []).
Proof.
  refine (proj1 (@migrate_to_other_host demo_flavor_db _ _ demo_vmops []
                   demo_instance 10 "9.9.9.9" (FlavorObj (mkFlavor 40)) _)).
  discriminate.
Defined.

Lemma migrate_returns_only_after_resize_witness :
  (∅ : gmap string string) = ∅ /\ "9.1.2.3" = @my_ip _ _ demo_vmops
  /\ exists f,
      @resolve_flavor demo_flavor_db (FlavorObj (mkFlavor 40))
      = Returns (Some f)
      /\ (10 <= root_gb f)%Z
      /\ (demo_migrate 10 "9.1.2.3" (FlavorObj (mkFlavor 40))).1.2
         = (if bool_decide (10 < root_gb f)%Z
            then [CallPowerOff; CallExtendDisk (root_gb f)] else [])
             ++ [CallResizeVm f].
Proof.
  apply (@migrate_returns_only_after_resize demo_flavor_db _ _ demo_vmops []
           demo_instance 10 "9.1.2.3" (FlavorObj (mkFlavor 40)) ∅).
  vm_compute. reflexivity.
Defined.

Lemma migrate_without_flavor_witness :
  demo_migrate 10 "9.1.2.3" FlavorNone
  = ([], [], Raises (Exn AttributeError)).
Proof.
  apply (@migrate_without_flavor demo_flavor_db _ _ demo_vmops [] demo_instance 10
           "9.1.2.3" FlavorNone).
  by left.
Defined.

Definition demo_power : @Power (list string) NetworkSpec.demo_states :=
  {| pvm_pwr_power_off := fun w _ restart force_immediate =>
       (w ++ [if force_immediate then "power_off immediate" else "power_off"],
        Ok tt);
     pvm_pwr_power_on := fun w _ => (w ++ ["power_on"], Ok tt) |}.

Example demo_reboot_hard :
  @reboot _ _ demo_vmops demo_power [] demo_instance "HARD"
  = (["power_off immediate"],
     [CallPwrPowerOff (@Network.mkLPAR NetworkSpec.demo_states
                                       "running" "inactive") true true],
     Ok true).
Proof. vm_compute. reflexivity. Qed.

Example demo_reboot_soft :
  (@reboot _ _ demo_vmops demo_power [] demo_instance "SOFT").1.1
  = ["power_off"].
Proof. vm_compute. reflexivity. Qed.

(** Every [vm.crt_vif] call raises [crt_fault], if there is one; the other
    calls return. *)
Definition demo_faults (crt_fault : option exn)
  : NetworkRest.RestFaults (list Network.CNA) :=
  {| NetworkRest.get_cnas_raises := fun _ => None;
     NetworkRest.crt_vif_raises := fun w _ =>
       match crt_fault with
       | Some e => Some (w, e)
       | None => None
       end;
     NetworkRest.wait_enter_raises := fun _ _ => None;
     NetworkRest.wait_exit_raises := fun _ _ => None |}.

Definition demo_plug_vifs (instance_name rmc : string) (crt_fault : option exn)
  : list Network.CNA * outcome unit :=
  @plug_vifs _ NetworkSpec.demo_states
             {| get_instance_wrapper := fun _ i =>
                  if bool_decide (name i = "instance-gone")
                  then Raise InstanceNotFound
                  else Ok (@Network.mkLPAR NetworkSpec.demo_states
                                           "running" rmc);
                vm_power_off := fun w _ _ => (w, Ok true);
                vm_update := fun w _ _ _ => (w, Ok tt);
                extend_disk := fun w _ _ => (w, Ok tt);
                retry := fun body w => body w;
                my_ip := "9.1.2.3" |}
             NetworkSpec.demo_vm NetworkSpec.demo_virt (demo_faults crt_fault)
             NetworkSpec.demo_world
             (mkInstance instance_name "49629a5c" 3 None)
             NetworkSpec.demo_network_info.

Example demo_plug_vifs_plugged :
  demo_plug_vifs "instance-00000001" "active" None
  = (NetworkSpec.demo_world ++ [Network.mkCNA "FAD4433ED121" "vswitch0"],
     Returns tt).
Proof. vm_compute. reflexivity. Qed.

Example demo_plug_vifs_not_found :
  demo_plug_vifs "instance-gone" "active" None
  = (NetworkSpec.demo_world,
     Raises (VirtualInterfacePlugException
               "Plug vif failed because instance instance-gone was not found.")).
Proof. vm_compute. reflexivity. Qed.

Example demo_plug_vifs_no_rmc :
  demo_plug_vifs "instance-00000001" "inactive" None
  = (NetworkSpec.demo_world,
     Raises (VirtualInterfacePlugException
               "Plug vif failed because of an unexpected error.")).
Proof. vm_compute. reflexivity. Qed.

(** The instance goes away between the lookup and the creation of the
    adapter. *)
Example demo_plug_vifs_gone_in_task :
  demo_plug_vifs "instance-00000001" "active" (Some InstanceNotFound)
  = (NetworkSpec.demo_world,
     Raises (VirtualInterfacePlugException
               ("Plug vif failed because instance instance-00000001 "
                  +:+ "was not found."))).
Proof. vm_compute. reflexivity. Qed.

Example demo_plug_vifs_rest_error :
  demo_plug_vifs "instance-00000001" "active"
                 (Some (HttpError (mkResponse 500 "/rest/api/uom/ClientNetworkAdapter")))
  = (NetworkSpec.demo_world,
     Raises (VirtualInterfacePlugException
               "Plug vif failed because of an unexpected error.")).
Proof. vm_compute. reflexivity. Qed.

End DriverSpec.

(** ** disk/ssp.py *)

Module SSPSpec.
Import SSP.

(** *** delete_disks *)







Lemma ref_count_pos (img : LU) (lus : list LU) :
  ref_count img lus <> 0 <-> exists d, d ∈ lus /\ is_clone_of img d = true.
Proof.
  unfold ref_count. split.
  - intros Hn. destruct (filter _ lus) as [|d l] eqn:E; [done|].
    assert (Hd : d ∈ filter (fun d => is_clone_of img d = true) lus)
      by (rewrite E; left).
    apply list_elem_of_filter in Hd as [Hc Hd]. eauto.
  - intros (d & Hd & Hc) Hz.
    assert (Hin : d ∈ filter (fun d => is_clone_of img d = true) lus)
      by (by apply list_elem_of_filter).
    destruct (filter _ lus); [by apply elem_of_nil in Hin | done].
Qed.

Lemma ref_count_zero (img : LU) (lus : list LU) :
  ref_count img lus = 0 <->
  forall d, d ∈ lus -> is_clone_of img d <> true.
Proof.
  split.
  - intros Hz d Hd Hc. apply (proj2 (ref_count_pos img lus)); eauto.
  - intros Hno. destruct (decide (ref_count img lus = 0)) as [|Hn]; [done|].
    apply ref_count_pos in Hn as (d & Hd & Hc). by destruct (Hno d Hd).
Qed.



(** What one round keeps. *)
Definition kept (cur : list LU) (d l : LU) : Prop :=
  l <> d
  /\ ~ (image_lu_for_clone cur d = Some l
        /\ ref_count l (remove_lu d cur) = 0).

#[local] Instance kept_dec cur d l : Decision (kept cur d l).
Proof. unfold kept. apply _. Defined.









(** The pool of [test_delete_disks]: three clones backed by two images. *)
Definition mk_img_lu (name udid : string) : LU :=
  mkLU name udid 123 LUType_IMAGE None.

Definition mk_dsk_lu (name udid cloned_from : string) : LU :=
  mkLU name udid 123 LUType_DISK (Some cloned_from).

Definition img_lu1 : LU := mk_img_lu "img_lu1" "xxabc1231".
Definition img_lu2 : LU := mk_img_lu "img_lu2" "xxabc1232".
Definition dsk_lu3 : LU := mk_dsk_lu "dsk_lu3" "xxabc1233" "yyabc1231".
Definition dsk_lu4 : LU := mk_dsk_lu "dsk_lu4" "xxabc1234" "yyabc1231".
Definition dsk_lu5 : LU := mk_dsk_lu "dsk_lu5" "xxabc1235" "yyabc1232".

Definition test_adapter : Adapter :=
  mkAdapter (mkSSP "ssp" [img_lu1; img_lu2; dsk_lu3; dsk_lu4; dsk_lu5]) 0.

Example test_delete_disks :
  delete_disks test_adapter [dsk_lu3; dsk_lu5]
  = mkAdapter (mkSSP "ssp" [img_lu1; dsk_lu4]) 1.
Proof. vm_compute. reflexivity. Qed.

(** Removing one of two clones keeps their image. *)
Example test_delete_one_clone :
  delete_disks test_adapter [dsk_lu3]
  = mkAdapter (mkSSP "ssp" [img_lu1; img_lu2; dsk_lu4; dsk_lu5]) 1.
Proof. vm_compute. reflexivity. Qed.







(** *** connect_instance_disk_to_mgmt *)

Section Connect.
Context `{PvmUtil} `{MgmtRest World}.

(** The mapping call raises for each of the LUs [lus] on [vios], one after
    the other, which takes the hypervisor from [w] to [w']. *)
Fixpoint all_raise (w : World) (vios : VIOS) (lus : list LU) (w' : World)
  : Prop :=
  match lus with
  | [] => w' = w
  | lu :: rest =>
      exists w1 e, add_vscsi_mapping w vios lu = (w1, Raise e)
                   /\ all_raise w1 vios rest w'
  end.

(** The VIOSes [us] are passed over: each is read, and the mapping call
    raises for every hit on it. A VIOS without a hit is passed over as it
    stands. *)
Fixpoint passed_over (lpar_id : Z) (disk_name : string) (w : World)
         (us : list string) (w' : World) : Prop :=
  match us with
  | [] => w' = w
  | u :: rest =>
      exists w1,
        all_raise w (read_vios w u)
                  (find_maps (scsi_mappings (read_vios w u)) lpar_id disk_name)
                  w1
        /\ passed_over lpar_id disk_name w1 rest w'
  end.

Lemma try_hits_all_raise (w w' : World) (vios : VIOS) (lus : list LU)
      (adds : list (VIOS * LU)) :
  all_raise w vios lus w' ->
  try_hits w vios lus adds = (w', adds ++ (pair vios <$> lus), None).
Proof.
  revert w adds. induction lus as [|lu rest IH]; intros w adds; simpl.
  - intros ->. by rewrite app_nil_r.
  - intros (w1 & e & Hadd & Hrest). rewrite Hadd, (IH _ _ Hrest).
    by rewrite <- app_assoc.
Qed.

Lemma try_hits_mapped (w w2 w' : World) (vios : VIOS) (tried rest : list LU)
      (lu : LU) (adds : list (VIOS * LU)) :
  all_raise w vios tried w2 ->
  add_vscsi_mapping w2 vios lu = (w', Ok tt) ->
  try_hits w vios (tried ++ lu :: rest) adds
  = (w', (adds ++ (pair vios <$> tried)) ++ [(vios, lu)], Some lu).
Proof.
  revert w adds. induction tried as [|t tried IH]; intros w adds; simpl.
  - intros -> Hadd. by rewrite Hadd, app_nil_r.
  - intros (w1 & e & Hadd1 & Hrest) Hadd. rewrite Hadd1.
    rewrite (IH _ _ Hrest Hadd). by rewrite <- !app_assoc.
Qed.

(** On one VIOS, either the mapping call raises for every hit, or there is
    a first hit for which it returns. *)
Lemma all_raise_or_mapped (w : World) (vios : VIOS) (lus : list LU) :
  (exists w', all_raise w vios lus w')
  \/ (exists tried lu rest w2 w',
        lus = tried ++ lu :: rest /\ all_raise w vios tried w2
        /\ add_vscsi_mapping w2 vios lu = (w', Ok tt)).
Proof.
  revert w. induction lus as [|lu rest IH]; intros w.
  - left. by exists w.
  - destruct (add_vscsi_mapping w vios lu) as [w1 [[]|e]] eqn:Hadd.
    + right. by exists [], lu, rest, w, w1.
    + destruct (IH w1) as [[w' Hall]|(tried & lu' & rest' & w2 & w' & -> & Hall
                                      & Hadd')].
      * left. exists w'. simpl. by exists w1, e.
      * right. exists (lu :: tried), lu', rest', w2, w'.
        split; [done|]. split; [|done]. simpl. by exists w1, e.
Qed.

Lemma connect_loop_passed_over (w w' : World) (lpar_id : Z)
      (disk_name : string) (us reads : list string)
      (adds : list (VIOS * LU)) :
  passed_over lpar_id disk_name w us w' ->
  exists adds',
    connect_loop w lpar_id disk_name us reads adds
    = mkConnectOutcome (Raise InstanceDiskMappingFailed) w' (reads ++ us)
                       adds'.
Proof.
  revert w reads adds. induction us as [|u rest IH]; intros w reads adds; simpl.
  - intros ->. exists adds. by rewrite app_nil_r.
  - intros (w1 & Hall & Hrest).
    rewrite (try_hits_all_raise _ _ _ _ adds Hall).
    destruct (IH _ (reads ++ [u]) (adds ++ (pair (read_vios w u) <$>
                find_maps (scsi_mappings (read_vios w u)) lpar_id disk_name))
                Hrest) as [adds' ->].
    exists adds'. by rewrite <- app_assoc.
Qed.

Lemma connect_loop_mapped (w w1 w2 w' : World) (lpar_id : Z)
      (disk_name : string) (pre post reads : list string) (u : string)
      (adds : list (VIOS * LU)) (tried rest : list LU) (lu : LU) :
  passed_over lpar_id disk_name w pre w1 ->
  find_maps (scsi_mappings (read_vios w1 u)) lpar_id disk_name
  = tried ++ lu :: rest ->
  all_raise w1 (read_vios w1 u) tried w2 ->
  add_vscsi_mapping w2 (read_vios w1 u) lu = (w', Ok tt) ->
  exists adds',
    connect_loop w lpar_id disk_name (pre ++ u :: post) reads adds
    = mkConnectOutcome (Ok (lu, read_vios w1 u)) w' (reads ++ pre ++ [u])
                       (adds' ++ [(read_vios w1 u, lu)]).
Proof.
  revert w reads adds.
  induction pre as [|u0 pre IH]; intros w reads adds; simpl.
  - intros -> Hhits Hall Hadd. rewrite Hhits.
    rewrite (try_hits_mapped _ _ _ _ _ rest _ adds Hall Hadd). by eexists.
  - intros (w0 & Hall0 & Hpre) Hhits Hall Hadd.
    rewrite (try_hits_all_raise _ _ _ _ adds Hall0).
    destruct (IH _ (reads ++ [u0]) (adds ++ (pair (read_vios w u0) <$>
                find_maps (scsi_mappings (read_vios w u0)) lpar_id disk_name))
                Hpre Hhits Hall Hadd) as [adds' ->].
    exists adds'. by rewrite <- app_assoc.
Qed.

(** Over the VIOSes of the cluster, either all are passed over, or there is
    a first VIOS with a hit for which the mapping call returns. *)
Lemma passed_over_or_mapped (w : World) (lpar_id : Z) (disk_name : string)
      (us : list string) :
  (exists w', passed_over lpar_id disk_name w us w')
  \/ (exists pre u post w1 tried lu rest w2 w',
        us = pre ++ u :: post
        /\ passed_over lpar_id disk_name w pre w1
        /\ find_maps (scsi_mappings (read_vios w1 u)) lpar_id disk_name
           = tried ++ lu :: rest
        /\ all_raise w1 (read_vios w1 u) tried w2
        /\ add_vscsi_mapping w2 (read_vios w1 u) lu = (w', Ok tt)).
Proof.
  revert w. induction us as [|u us IH]; intros w.
  - left. by exists w.
  - destruct (all_raise_or_mapped w (read_vios w u)
                (find_maps (scsi_mappings (read_vios w u)) lpar_id disk_name))
      as [[w1 Hall]|(tried & lu & rest & w2 & w' & Hhits & Hall & Hadd)].
    + destruct (IH w1) as [[w' Hpo]|(pre & u' & post & w1' & tried & lu & rest
                                     & w2 & w' & -> & Hpo & Hhits & Hall'
                                     & Hadd)].
      * left. exists w'. simpl. by exists w1.
      * right. exists (u :: pre), u', post, w1', tried, lu, rest, w2, w'.
        split; [done|]. split; [|done]. simpl. by exists w1.
    + right. by exists [], u, us, w, tried, lu, rest, w2, w'.
Qed.

Lemma connect_loop_no_hits (w : World) (lpar_id : Z) (disk_name : string)
      (vios_uuids reads : list string) (adds : list (VIOS * LU)) :
  Forall (fun u => find_maps (scsi_mappings (read_vios w u)) lpar_id disk_name
                   = []) vios_uuids ->
  connect_loop w lpar_id disk_name vios_uuids reads adds
  = mkConnectOutcome (Raise InstanceDiskMappingFailed) w
                     (reads ++ vios_uuids) adds.
Proof.
  intros Hall. revert reads.
  induction Hall as [|u l Hu _ IH]; intros reads; simpl.
  - by rewrite app_nil_r.
  - rewrite Hu. simpl. rewrite IH. by rewrite <- app_assoc.
Qed.

Lemma connect_loop_first_hit (w w' : World) (lpar_id : Z)
      (disk_name : string) (pre post reads : list string) (u : string)
      (adds : list (VIOS * LU)) (lu : LU) (rest : list LU) :
  Forall (fun u' => find_maps (scsi_mappings (read_vios w u')) lpar_id
                              disk_name = []) pre ->
  find_maps (scsi_mappings (read_vios w u)) lpar_id disk_name = lu :: rest ->
  add_vscsi_mapping w (read_vios w u) lu = (w', Ok tt) ->
  connect_loop w lpar_id disk_name (pre ++ u :: post) reads adds
  = mkConnectOutcome (Ok (lu, read_vios w u)) w' (reads ++ pre ++ [u])
                     (adds ++ [(read_vios w u, lu)]).
Proof.
  intros Hpre Hhit Hadd. revert reads.
  induction Hpre as [|u0 l Hu0 _ IH]; intros reads; simpl.
  - by rewrite Hhit; simpl; rewrite Hadd.
  - rewrite Hu0. simpl. rewrite IH. by rewrite <- app_assoc.
Qed.

(** C2, as amended: [connect_instance_disk_to_mgmt] reads the VIOSes of the
    cluster in order. At the first VIOS with a SCSI mapping of the
    instance's partition that is backed by the instance's boot LU, it maps
    that LU to the management partition and, when that call returns, returns
    the LU with that VIOS, having read no VIOS behind it. When no VIOS has
    such a mapping it raises [InstanceDiskMappingFailed] and has mapped
    nothing. A mapping call that raises makes it go on: what it returns is
    the first hit, in the order of the VIOSes, for which the mapping call
    returns, and it raises [InstanceDiskMappingFailed], with every VIOS
    read, when the call raised for every hit. One of the two is always the
    case. *)
Theorem connect_instance_disk_to_mgmt_spec (vios_uuids : list string)
        (w : World) (instance_name : string) :
  let lpar_id := get_instance_lpar_id w instance_name in
  let disk_name := "boot_" +:+ sanitize instance_name in
  let hits := fun w u =>
    find_maps (scsi_mappings (read_vios w u)) lpar_id disk_name in
  let o := connect_instance_disk_to_mgmt vios_uuids w instance_name in
  (forall pre u post lu rest w',
      vios_uuids = pre ++ u :: post ->
      Forall (fun u' => hits w u' = []) pre ->
      hits w u = lu :: rest ->
      add_vscsi_mapping w (read_vios w u) lu = (w', Ok tt) ->
      o = mkConnectOutcome (Ok (lu, read_vios w u)) w' (pre ++ [u])
                           [(read_vios w u, lu)])
  /\ (Forall (fun u => hits w u = []) vios_uuids ->
      o = mkConnectOutcome (Raise InstanceDiskMappingFailed) w vios_uuids [])
  /\ (forall pre u post w1 tried lu rest w2 w',
        vios_uuids = pre ++ u :: post ->
        passed_over lpar_id disk_name w pre w1 ->
        hits w1 u = tried ++ lu :: rest ->
        all_raise w1 (read_vios w1 u) tried w2 ->
        add_vscsi_mapping w2 (read_vios w1 u) lu = (w', Ok tt) ->
        conn_result o = Ok (lu, read_vios w1 u) /\ conn_world o = w'
        /\ conn_reads o = pre ++ [u]
        /\ last (conn_adds o) = Some (read_vios w1 u, lu))
  /\ (forall w',
        passed_over lpar_id disk_name w vios_uuids w' ->
        conn_result o = Raise InstanceDiskMappingFailed /\ conn_world o = w'
        /\ conn_reads o = vios_uuids)
  /\ ((exists w', passed_over lpar_id disk_name w vios_uuids w')
      \/ (exists pre u post w1 tried lu rest w2 w',
            vios_uuids = pre ++ u :: post
            /\ passed_over lpar_id disk_name w pre w1
            /\ hits w1 u = tried ++ lu :: rest
            /\ all_raise w1 (read_vios w1 u) tried w2
            /\ add_vscsi_mapping w2 (read_vios w1 u) lu = (w', Ok tt))).
Proof.
  simpl. unfold connect_instance_disk_to_mgmt.
  change (_get_disk_name "boot" instance_name)
    with ("boot_" +:+ sanitize instance_name).
  split; [|split; [|split; [|split]]].
  - intros pre u post lu rest w' -> Hpre Hhit Hadd.
    by rewrite (connect_loop_first_hit w w' _ _ pre post [] u [] lu rest).
  - intros Hall. by rewrite connect_loop_no_hits.
  - intros pre u post w1 tried lu rest w2 w' -> Hpo Hhits Hall Hadd.
    destruct (connect_loop_mapped w w1 w2 w' _ _ pre post [] u [] tried rest
                lu Hpo Hhits Hall Hadd) as [adds' ->].
    simpl. by rewrite last_snoc.
  - intros w' Hpo.
    by destruct (connect_loop_passed_over w w' _ _ vios_uuids [] [] Hpo)
      as [adds' ->].
  - apply passed_over_or_mapped.
Qed.

(** A hit is a mapping of the partition that an LU of the name backs. *)
Lemma find_maps_hit (maps : list SCSIMapping) (lpar_id : Z)
      (disk_name : string) (lu : LU) :
  lu ∈ find_maps maps lpar_id disk_name <->
  lu_name lu = disk_name
  /\ mkSCSIMapping lpar_id (Some (StgLU lu)) ∈ maps.
Proof.
  unfold find_maps. rewrite list_elem_of_omap. split.
  - intros ([id [[lu'|]|]] & Hin & Hm); simpl in Hm; try discriminate.
    destruct (bool_decide (id = lpar_id)) eqn:E1; [|discriminate].
    destruct (bool_decide (lu_name lu' = disk_name)) eqn:E2; [|discriminate].
    apply bool_decide_eq_true in E1, E2. simpl in Hm.
    injection Hm as ->. by subst.
  - intros [Hn Hin]. eexists. split; [exact Hin|]. simpl.
    by rewrite !bool_decide_eq_true_2.
Qed.

End Connect.

(** *** Cluster discovery *)

Section Fetch.
Context `{ClusterRest World}.

(** C3: with a configured cluster name, discovery searches by that name
    (one search, no read) and raises [ClusterNotFoundByName] for no result
    and [TooManyClustersFound] for more than one; without one it reads the
    Cluster feed (one read, no search) and raises [NoConfigNoClusterFound]
    for an empty feed and [NoConfigTooManyClusters] for more than one
    entry; a single cluster is what it goes on with, in both cases. *)
Theorem fetch_cluster_spec (w : World) (cluster_name : string) :
  let r := _fetch_cluster w cluster_name in
  let found :=
    if bool_decide (cluster_name = "") then read_Cluster_feed w
    else Cluster_search w cluster_name in
  (cluster_name <> "" ->
     r.1 = [CallSearch cluster_name]
     /\ (length found = 0 -> r.2 = Raise ClusterNotFoundByName)
     /\ (1 < length found -> r.2 = Raise TooManyClustersFound))
  /\ (cluster_name = "" ->
     r.1 = [CallRead "Cluster"]
     /\ (length found = 0 -> r.2 = Raise NoConfigNoClusterFound)
     /\ (1 < length found -> r.2 = Raise NoConfigTooManyClusters))
  /\ (forall clust_wrap, found = [clust_wrap] -> r.2 = Ok clust_wrap)
  /\ (raises r.2 = false <-> length found = 1).
Proof.
  simpl. unfold _fetch_cluster.
  case_bool_decide as Hn; simpl.
  - destruct (read_Cluster_feed w) as [|c [|c' l]]; simpl;
      repeat split; try done; try lia; try (by intros ? [= ->]).
  - destruct (Cluster_search w cluster_name) as [|c [|c' l]]; simpl;
      repeat split; try done; try lia; try (by intros ? [= ->]).
Qed.

End Fetch.

(** *** create_disk_from_image *)

Lemma _find_lu_some (ssp : SSPWrap) (name : string) (typ : LUType) (lu : LU) :
  _find_lu ssp name typ = Some lu ->
  lu ∈ logical_units ssp /\ lu_type lu = typ /\ lu_name lu = name.
Proof.
  unfold _find_lu. intros Hf. apply find_some in Hf as [Hin Hc].
  apply andb_true_iff in Hc as [Ht Hn].
  apply bool_decide_eq_true in Ht, Hn. by rewrite list_elem_of_In.
Qed.

Lemma _find_lu_none (ssp : SSPWrap) (name : string) (typ : LUType) :
  _find_lu ssp name typ = None <->
  forall lu, lu ∈ logical_units ssp ->
             ~ (lu_type lu = typ /\ lu_name lu = name).
Proof.
  unfold _find_lu. split.
  - intros Hf lu Hin [Ht Hn]. apply list_elem_of_In in Hin.
    pose proof (find_none _ _ Hf _ Hin) as Hc. simpl in Hc.
    by rewrite !bool_decide_eq_true_2 in Hc.
  - intros Hno. destruct (List.find _ _) as [lu|] eqn:E; [|done].
    apply find_some in E as [Hin Hc]. apply list_elem_of_In in Hin.
    apply andb_true_iff in Hc as [Ht Hn].
    apply bool_decide_eq_true in Ht, Hn. by destruct (Hno lu Hin).
Qed.

Section Create.
Context `{PvmUtil} `{StorageTasks World}.

(** C4: when the SSP holds an image LU named ['image_'] plus the sanitized
    image name, [create_disk_from_image] uploads nothing and clones from
    that LU; otherwise it first uploads a new image LU of that name and of
    the image's size in bytes and clones from it. Either way the one clone
    call asks for the name ['boot_'] plus the sanitized instance name, and
    the LU that it created is what the function returns. *)
Theorem create_disk_from_image_spec (ssp : SSPWrap) (clust : Cluster)
        (w : World) (instance_name : string) (img : ImageMeta)
        (disk_size_gb : Z) :
  let luname := "image_" +:+ sanitize (img_name img) in
  let boot := "boot_" +:+ sanitize instance_name in
  let r := create_disk_from_image ssp clust w instance_name img disk_size_gb in
  let up := upload_new_lu w (any_vios_uuid w) ssp luname (img_size img) in
  ((exists lu, lu ∈ logical_units ssp
               /\ lu_type lu = LUType_IMAGE /\ lu_name lu = luname) ->
   exists image_lu,
     image_lu ∈ logical_units ssp /\ lu_type image_lu = LUType_IMAGE
     /\ lu_name image_lu = luname
     /\ r.1.2 = [CallClone image_lu boot disk_size_gb]
     /\ r.2 = (crt_lu_linked_clone w ssp clust image_lu boot disk_size_gb).2.2
     /\ r.1.1 = (crt_lu_linked_clone w ssp clust image_lu boot disk_size_gb).1)
  /\ ((forall lu, lu ∈ logical_units ssp ->
                  ~ (lu_type lu = LUType_IMAGE /\ lu_name lu = luname)) ->
      r.1.2 = [CallUpload luname (img_size img);
               CallClone up.2 boot disk_size_gb]
      /\ r.2 = (crt_lu_linked_clone up.1 ssp clust up.2 boot disk_size_gb).2.2
      /\ r.1.1
         = (crt_lu_linked_clone up.1 ssp clust up.2 boot disk_size_gb).1).
Proof.
  simpl. unfold create_disk_from_image.
  change (_get_disk_name "boot" instance_name)
    with ("boot_" +:+ sanitize instance_name).
  change (_get_image_name img) with ("image_" +:+ sanitize (img_name img)).
  split.
  - intros (lu0 & Hin0 & Ht0 & Hn0).
    destruct (_find_lu ssp _ LUType_IMAGE) as [lu|] eqn:Ef.
    + apply _find_lu_some in Ef as (Hin & Ht & Hn).
      exists lu. destruct (crt_lu_linked_clone w ssp clust lu _ _)
        as [w2 [ssp' boot_lu]]. done.
    + exfalso. by apply (proj1 (_find_lu_none _ _ _) Ef lu0).
  - intros Hno. apply _find_lu_none in Hno. rewrite Hno.
    destruct (upload_new_lu w _ ssp _ _) as [w1 lu]. simpl.
    destruct (crt_lu_linked_clone w1 ssp clust lu _ _)
      as [w2 [ssp' boot_lu]]. done.
Qed.

End Create.

(** *** Stand-ins for the examples, after the fixtures of [test_ssp.py] *)

(** [s/-/_/g] *)
Definition demo_util : PvmUtil :=
  {| sanitize := fun n =>
       string_of_list_ascii
         (List.map (fun c => if Ascii.eqb c "-"%char then "_"%char else c)
                   (list_ascii_of_string n)) |}.

Definition boot_lu : LU :=
  mkLU "boot_my_instance_name"
       "274d7bb790666211e3bc1a00006cae8b01ac18997ab9bc23fb24756e9713a93f90"
       10 LUType_DISK None.

Definition other_lu : LU :=
  mkLU "boot_other_instance" "27cfc907d2abf511e4b2d540f2e95daf30" 10
       LUType_DISK None.

(** [vios1] and [vios2] map the boot LU to partition 4, [vios3] does not. *)
Definition vios1 : VIOS :=
  mkVIOS "vios1_181.68" "3443DB77-AED1-47ED-9AA5-3DB9C6CF7089"
         [mkSCSIMapping 2 (Some (StgLU other_lu));
          mkSCSIMapping 4 (Some (StgOther "vopt_cfg"));
          mkSCSIMapping 4 None;
          mkSCSIMapping 4 (Some (StgLU boot_lu))].

Definition vios2 : VIOS :=
  mkVIOS "vios2" "7C6475B3-73A5-B9FF-4799-B23B20292951" (scsi_mappings vios1).

Definition vios3 : VIOS :=
  mkVIOS "vios3" "B9FF4799-B23B-2029-2951-7C6475B373A5"
         [mkSCSIMapping 2 (Some (StgLU other_lu));
          mkSCSIMapping 3 (Some (StgLU boot_lu))].

(** The hypervisor is the list of mappings made to the management
    partition; mapping through a VIOS named in [failing] raises. *)
Definition demo_rest (failing : list string)
  : MgmtRest (list (string * string)) :=
  {| read_vios := fun _ u =>
       default (mkVIOS "" u [])
               (List.find (fun v => bool_decide (vios_uuid v = u))
                          [vios1; vios2; vios3]);
     get_instance_lpar_id := fun _ _ => 4%Z;
     add_vscsi_mapping := fun w v lu =>
       if bool_decide (vios_name v ∈ failing)
       then (w, Raise (OtherException "mapping failed"))
       else (w ++ [(vios_name v, lu_name lu)], Ok tt) |}.

Definition demo_connect (failing : list string) (vioses : list VIOS)
  : ConnectOutcome (list (string * string)) :=
  @connect_instance_disk_to_mgmt demo_util _ (demo_rest failing)
    (List.map vios_uuid vioses) [] "my-instance-name".

Example test_connect_first_vios :
  demo_connect [] [vios1; vios2]
  = mkConnectOutcome (Ok (boot_lu, vios1))
                     [("vios1_181.68", "boot_my_instance_name")]
                     [vios_uuid vios1] [(vios1, boot_lu)].
Proof. vm_compute. reflexivity. Qed.

Example test_connect_second_vios :
  demo_connect [] [vios3; vios2]
  = mkConnectOutcome (Ok (boot_lu, vios2))
                     [("vios2", "boot_my_instance_name")]
                     [vios_uuid vios3; vios_uuid vios2] [(vios2, boot_lu)].
Proof. vm_compute. reflexivity. Qed.

Example test_connect_no_hits :
  demo_connect [] [vios3; vios3]
  = mkConnectOutcome (Raise InstanceDiskMappingFailed) []
                     [vios_uuid vios3; vios_uuid vios3] [].
Proof. vm_compute. reflexivity. Qed.

(** When the mapping call raises on the first hit, the next one is tried. *)
Example test_connect_failover :
  demo_connect ["vios1_181.68"] [vios1; vios2]
  = mkConnectOutcome (Ok (boot_lu, vios2))
                     [("vios2", "boot_my_instance_name")]
                     [vios_uuid vios1; vios_uuid vios2]
                     [(vios1, boot_lu); (vios2, boot_lu)].
Proof. vm_compute. reflexivity. Qed.

(** The host is the list of its clusters. *)
Definition demo_clusters : ClusterRest (list Cluster) :=
  {| Cluster_search := fun w n =>
       List.filter (fun c => bool_decide (clust_name c = n)) w;
     read_Cluster_feed := fun w => w |}.

Definition clust1 : Cluster :=
  mkCluster "clust1" "https://pvm/rest/api/uom/SharedStoragePool/e357a79a".

Definition clust2 : Cluster :=
  mkCluster "clust1" "https://pvm/rest/api/uom/SharedStoragePool/0c0a5e6b".

Example test_init_green_with_config :
  @_fetch_cluster _ demo_clusters [clust1] "clust1"
  = ([CallSearch "clust1"], Ok clust1).
Proof. vm_compute. reflexivity. Qed.

Example test_init_green_no_config :
  @_fetch_cluster _ demo_clusters [clust1] ""
  = ([CallRead "Cluster"], Ok clust1).
Proof. vm_compute. reflexivity. Qed.

Example test_init_ClusterNotFoundByName :
  @_fetch_cluster _ demo_clusters [clust1] "clust9"
  = ([CallSearch "clust9"], Raise ClusterNotFoundByName).
Proof. vm_compute. reflexivity. Qed.

Example test_init_TooManyClustersFound :
  @_fetch_cluster _ demo_clusters [clust1; clust2] "clust1"
  = ([CallSearch "clust1"], Raise TooManyClustersFound).
Proof. vm_compute. reflexivity. Qed.

Example test_init_NoConfigNoClusterFound :
  @_fetch_cluster _ demo_clusters [] ""
  = ([CallRead "Cluster"], Raise NoConfigNoClusterFound).
Proof. vm_compute. reflexivity. Qed.

Example test_init_NoConfigTooManyClusters :
  @_fetch_cluster _ demo_clusters [clust1; clust2] ""
  = ([CallRead "Cluster"], Raise NoConfigTooManyClusters).
Proof. vm_compute. reflexivity. Qed.

(** The storage tasks as the tests mock them: the upload yields an image
    LU, the clone a disk LU; the hypervisor counts the calls. *)
Definition demo_storage : StorageTasks nat :=
  {| any_vios_uuid := fun _ => "10B06F4B-437D-9C18-CA95-34006424120D";
     upload_new_lu := fun w _ _ lu_name f_size =>
       (S w, mkLU lu_name "27image_lu" f_size LUType_IMAGE None);
     crt_lu_linked_clone := fun w ssp _ src name gb =>
       let new_lu := mkLU name "27new_lu" gb LUType_DISK (Some (lu_udid src)) in
       (S w, (mkSSP (ssp_name ssp) (logical_units ssp ++ [new_lu]), new_lu)) |}.

Definition b2G : Z := 2 * 1024 * 1024 * 1024.

Definition test_img : ImageMeta := mkImageMeta "image-name" "image-id" b2G.

Example test_create_disk_from_new_image :
  @create_disk_from_image demo_util _ demo_storage (mkSSP "ssp" []) clust1 0
    "instance-name" test_img 1
  = (2,
     [CallUpload "image_image_name" b2G;
      CallClone (mkLU "image_image_name" "27image_lu" b2G LUType_IMAGE None)
                "boot_instance_name" 1],
     mkLU "boot_instance_name" "27new_lu" 1 LUType_DISK (Some "27image_lu")).
Proof. vm_compute. reflexivity. Qed.

Definition existing_img_lu : LU :=
  mkLU "image_image_name" "27abcdef" 123 LUType_IMAGE None.

Example test_create_disk_from_existing_image :
  @create_disk_from_image demo_util _ demo_storage
    (mkSSP "ssp" [boot_lu; existing_img_lu]) clust1 0
    "instance-name" test_img 1
  = (1,
     [CallClone existing_img_lu "boot_instance_name" 1],
     mkLU "boot_instance_name" "27new_lu" 1 LUType_DISK (Some "27abcdef")).
Proof. vm_compute. reflexivity. Qed.

(** C2, counterexample: both VIOSes have the mapping of the boot LU and the
    mapping call raises on the first of them. The pair returned is that of
    the second VIOS, after two mapping calls; when the call raises on both,
    [InstanceDiskMappingFailed] is raised although each VIOS has the
    mapping, again after two mapping calls. *)
Lemma connect_fails_over_first_hit :
  find_maps (scsi_mappings vios1) 4 "boot_my_instance_name" = [boot_lu]
  /\ String.eqb (vios_name vios1) (vios_name vios2) = false
  /\ conn_result (demo_connect ["vios1_181.68"] [vios1; vios2])
     = Ok (boot_lu, vios2)
  /\ conn_adds (demo_connect ["vios1_181.68"] [vios1; vios2])
     = [(vios1, boot_lu); (vios2, boot_lu)]
  /\ conn_result (demo_connect ["vios1_181.68"; "vios2"] [vios1; vios2])
     = Raise InstanceDiskMappingFailed
  /\ conn_adds (demo_connect ["vios1_181.68"; "vios2"] [vios1; vios2])
     = [(vios1, boot_lu); (vios2, boot_lu)].
Proof. repeat split; vm_compute; reflexivity. Qed.

Lemma connect_instance_disk_to_mgmt_spec_witness :
  demo_connect [] [vios3; vios2]
  = mkConnectOutcome (Ok (boot_lu, vios2))
                     [("vios2", "boot_my_instance_name")]
                     [vios_uuid vios3; vios_uuid vios2] [(vios2, boot_lu)].
Proof.
  refine (proj1 (@connect_instance_disk_to_mgmt_spec demo_util _ (demo_rest [])
                   (List.map vios_uuid [vios3; vios2]) [] "my-instance-name")
                [vios_uuid vios3] (vios_uuid vios2) [] boot_lu []
                [("vios2", "boot_my_instance_name")] eq_refl _ _ _).
  - constructor; [vm_compute; reflexivity | constructor].
  - vm_compute. reflexivity.
  - vm_compute. reflexivity.
Defined.

Lemma fetch_cluster_spec_witness :
  (@_fetch_cluster _ demo_clusters [clust1; clust2] "clust1").2
  = Raise TooManyClustersFound.
Proof.
  pose proof (@fetch_cluster_spec _ demo_clusters [clust1; clust2] "clust1")
    as Hspec.
  cbv zeta in Hspec. destruct Hspec as (Hnamed & _).
  destruct Hnamed as (_ & _ & Hmany); [discriminate|].
  apply Hmany. vm_compute. lia.
Defined.

Lemma create_disk_from_image_spec_witness :
  exists image_lu,
    image_lu ∈ [boot_lu; existing_img_lu]
    /\ lu_type image_lu = LUType_IMAGE
    /\ lu_name image_lu = "image_image_name"
    /\ (@create_disk_from_image demo_util _ demo_storage
          (mkSSP "ssp" [boot_lu; existing_img_lu]) clust1 0
          "instance-name" test_img 1).1.2
       = [CallClone image_lu "boot_instance_name" 1].
Proof.
  pose proof (@create_disk_from_image_spec demo_util _ demo_storage
                (mkSSP "ssp" [boot_lu; existing_img_lu]) clust1 0
                "instance-name" test_img 1) as Hspec.
  cbv zeta in Hspec. destruct Hspec as (Hexisting & _).
  destruct Hexisting as (lu & Hin & Hty & Hname & Hcalls & _).
  - exists existing_img_lu. split; [right; left|]. split; reflexivity.
  - exists lu. repeat split; assumption.
Defined.

End SSPSpec.
